(** * ChessAnalyzer (analyzer.py): a shallow embedding and its properties

    The development follows the source file:
    - [Py]: the Python values the program handles (what [json.loads] and the
      HTTP libraries hand back), with the built-ins the program applies to
      them: [str], subscripting, [in], iteration, [split], slicing, and the
      one regular expression;
    - [World]: everything outside the process (clock, random source, HTTP
      and game-history services, web sockets) as scripted replies, plus a
      log of what the program sent;
    - [Analyzer]: the class [ChessAnalyzer], method by method;
    - the vocabulary of the properties and the sample data;
    - the properties, method by method, each followed further down by its
      instance at the sample data. *)

From Stdlib Require Import ZArith Ascii.
From stdpp Require Import base tactics option list strings pretty gmap.

Local Open Scope Z_scope.
Set Warnings "-register-all".

(** ** Python values *)

Module Py.

(** A Python [float] is a binary64 number. It is represented here by what
    [repr] is computed from: sign, the shortest digit string that reads back
    as the same number, and the position [decpt] of the decimal point
    relative to the start of these digits (value = 0.d1d2...dn * 10^decpt). *)
Inductive pyfloat : Type :=
| FFinite (neg : bool) (digits : string) (decpt : Z)
| FInf (neg : bool)
| FNan.

(** The values [json.loads] produces. A [dict] keeps its items in insertion
    order; a Python [str] is a [string] whose characters are the code points
    below 256. *)
Inductive pyval : Type :=
| PNone
| PBool (b : bool)
| PInt (z : Z)
| PFloat (f : pyfloat)
| PStr (s : string)
| PList (l : list pyval)
| PDict (d : list (string * pyval)).

(** Exceptions the program can meet. [ExternalError] stands for whatever a
    library outside the program raises (requests, websockets, chessdotcom). *)
Inductive exn : Type :=
| KeyError (key : pyval)
| IndexError
| TypeError
| AttributeError
| JSONDecodeError
| ConnectionClosed
| ExternalError (what : string).

(** Outcome of running a piece of Python: a value, a raised exception, or
    [Pending] when the fuel given to the one unbounded loop of the program
    (the receive loop) ran out before it returned. *)
Inductive res (A : Type) : Type :=
| Ok (a : A)
| Raise (e : exn)
| Pending.
Arguments Ok {A} a.
Arguments Raise {A} e.
Arguments Pending {A}.

Definition rbind {A B} (r : res A) (k : A → res B) : res B :=
  match r with
  | Ok a => k a
  | Raise e => Raise e
  | Pending => Pending
  end.

Notation "'let*' x := r 'in' k" := (rbind r (λ x, k))
  (at level 10, x name, r at level 100, k at level 200, only parsing).

(** *** Strings *)

Fixpoint str_take (n : nat) (s : string) : string :=
  match n, s with
  | S n', String c s' => String c (str_take n' s')
  | _, _ => ""
  end.

Fixpoint str_drop (n : nat) (s : string) : string :=
  match n, s with
  | S n', String _ s' => str_drop n' s'
  | _, _ => s
  end.

Fixpoint str_mem (c : ascii) (s : string) : bool :=
  match s with
  | "" => false
  | String c' s' => if decide (c = c') then true else str_mem c s'
  end.

Fixpoint str_repeat (c : ascii) (n : nat) : string :=
  match n with
  | O => ""
  | S n' => String c (str_repeat c n')
  end.

Fixpoint str_join (sep : string) (l : list string) : string :=
  match l with
  | [] => ""
  | [s] => s
  | s :: l' => s +:+ sep +:+ str_join sep l'
  end.

Fixpoint str_prefix (p s : string) : bool :=
  match p, s with
  | "", _ => true
  | String a p', String b s' => if decide (a = b) then str_prefix p' s' else false
  | String _ _, "" => false
  end.

(** [p in s] for two strings: [p] occurs somewhere in [s]. *)
Fixpoint str_contains (p s : string) : bool :=
  str_prefix p s ||
  match s with
  | "" => false
  | String _ s' => str_contains p s'
  end.

(** [s.split(c)] for a separator of one character: never the empty list. *)
Fixpoint str_split (c : ascii) (s : string) : list string :=
  match s with
  | "" => [""]
  | String a s' =>
      if decide (a = c) then "" :: str_split c s'
      else match str_split c s' with
           | [] => [String a ""]
           | w :: ws => String a w :: ws
           end
  end.

Definition is_digit (c : ascii) : bool :=
  let n := nat_of_ascii c in (48 <=? n)%nat && (n <=? 57)%nat.

(** *** [repr] and [str] *)

Definition hex_digit (n : nat) : ascii :=
  ascii_of_nat (if (n <? 10)%nat then 48 + n else 87 + n).

(** A character as [repr] of a [str] writes it inside the quote [q]. *)
Definition repr_char (q : ascii) (c : ascii) : string :=
  let n := nat_of_ascii c in
  if decide (c = q) then String "\" (String c "")
  else if decide (c = "\"%char) then "\\"
  else if decide (n = 9%nat) then "\t"
  else if decide (n = 10%nat) then "\n"
  else if decide (n = 13%nat) then "\r"
  else if (n <? 32)%nat || ((127 <=? n)%nat && (n <=? 160)%nat)
          || (n =? 173)%nat
       then String "\" (String "x" (String (hex_digit (n / 16))
                                      (String (hex_digit (n mod 16)) "")))
  else String c "".

Fixpoint repr_chars (q : ascii) (s : string) : string :=
  match s with
  | "" => ""
  | String c s' => repr_char q c +:+ repr_chars q s'
  end.

Definition squote : ascii := "'"%char.
Definition dquote : ascii := ascii_of_nat 34.

Definition str_repr (s : string) : string :=
  let q := if str_mem squote s && negb (str_mem dquote s)
           then dquote else squote in
  String q (repr_chars q s +:+ String q "").

Definition int_repr (z : Z) : string := pretty z.

Definition exponent_repr (e : Z) : string :=
  (if e <? 0 then "e-" else "e+") +:+
  (if Z.abs e <? 10 then "0" else "") +:+ pretty (Z.abs e).

(** [float.__repr__]: exponent notation when [decpt <= -4] or [decpt > 16],
    positional notation with at least one digit after the point otherwise. *)
Definition float_repr (f : pyfloat) : string :=
  match f with
  | FNan => "nan"
  | FInf neg => if neg then "-inf" else "inf"
  | FFinite neg digits decpt =>
      let n := Z.of_nat (String.length digits) in
      (if neg then "-" else "") +:+
      (if (decpt <=? -4) || (16 <? decpt) then
         match digits with
         | "" => ""
         | String c "" => String c ""
         | String c rest => String c ("." +:+ rest)
         end +:+ exponent_repr (decpt - 1)
       else if decpt <=? 0 then
         "0." +:+ str_repeat "0" (Z.to_nat (- decpt)) +:+ digits
       else if decpt <? n then
         str_take (Z.to_nat decpt) digits +:+ "." +:+
         str_drop (Z.to_nat decpt) digits
       else
         digits +:+ str_repeat "0" (Z.to_nat (decpt - n)) +:+ ".0")
  end.

Fixpoint py_repr (v : pyval) : string :=
  match v with
  | PNone => "None"
  | PBool b => if b then "True" else "False"
  | PInt z => int_repr z
  | PFloat f => float_repr f
  | PStr s => str_repr s
  | PList l => "[" +:+ str_join ", " (List.map py_repr l) +:+ "]"
  | PDict d =>
      "{" +:+
      str_join ", "
        (List.map (λ kv, str_repr (fst kv) +:+ ": " +:+ py_repr (snd kv)) d)
      +:+ "}"
  end.

(** [str(v)] *)
Definition py_str (v : pyval) : string :=
  match v with
  | PStr s => s
  | _ => py_repr v
  end.

(** *** Subscripting, membership, iteration, equality *)

Fixpoint dict_get (k : string) (d : list (string * pyval)) : option pyval :=
  match d with
  | [] => None
  | (k', v) :: d' => if decide (k = k') then Some v else dict_get k d'
  end.

(** [d[k] = v] on a dict: an existing key keeps its place. *)
Fixpoint dict_set (k : string) (v : pyval) (d : list (string * pyval))
  : list (string * pyval) :=
  match d with
  | [] => [(k, v)]
  | (k', v') :: d' =>
      if decide (k = k') then (k, v) :: d' else (k', v') :: dict_set k v d'
  end.

(** [v[k]] for a [str] key [k]. *)
Definition py_getitem (v : pyval) (k : string) : res pyval :=
  match v with
  | PDict d =>
      match dict_get k d with
      | Some x => Ok x
      | None => Raise (KeyError (PStr k))
      end
  | _ => Raise TypeError
  end.

(** Position of index [i] in a sequence of length [n]: negative indices
    count from the end. *)
Definition seq_index (n : nat) (i : Z) : option nat :=
  let j := if i <? 0 then i + Z.of_nat n else i in
  if (0 <=? j) && (j <? Z.of_nat n) then Some (Z.to_nat j) else None.

Fixpoint str_nth (n : nat) (s : string) : option ascii :=
  match s, n with
  | "", _ => None
  | String c _, O => Some c
  | String _ s', S n' => str_nth n' s'
  end.

(** [v[i]] for an [int] index [i]. *)
Definition py_index (v : pyval) (i : Z) : res pyval :=
  match v with
  | PList l =>
      match seq_index (List.length l) i with
      | Some n =>
          match l !! n with
          | Some x => Ok x
          | None => Raise IndexError
          end
      | None => Raise IndexError
      end
  | PStr s =>
      match seq_index (String.length s) i with
      | Some n =>
          match str_nth n s with
          | Some c => Ok (PStr (String c ""))
          | None => Raise IndexError
          end
      | None => Raise IndexError
      end
  | PDict _ => Raise (KeyError (PInt i))
  | _ => Raise TypeError
  end.

(** [v == s] for a [str] [s]. *)
Definition py_eq_str (v : pyval) (s : string) : bool :=
  match v with
  | PStr t => bool_decide (t = s)
  | _ => false
  end.

(** [s in v] for a [str] [s]. *)
Definition py_contains (s : string) (v : pyval) : res bool :=
  match v with
  | PStr t => Ok (str_contains s t)
  | PList l => Ok (existsb (λ x, py_eq_str x s) l)
  | PDict d => Ok (bool_decide (is_Some (dict_get s d)))
  | _ => Raise TypeError
  end.

Fixpoint str_chars (s : string) : list pyval :=
  match s with
  | "" => []
  | String c s' => PStr (String c "") :: str_chars s'
  end.

(** The items a [for] loop over [v] visits. *)
Definition py_iter (v : pyval) : res (list pyval) :=
  match v with
  | PList l => Ok l
  | PDict d => Ok (List.map (λ kv, PStr (fst kv)) d)
  | PStr s => Ok (str_chars s)
  | _ => Raise TypeError
  end.

(** *** The one regular expression of the program *)

(** What [.*] matches at the start of [s]: everything before the first
    newline. *)
Fixpoint re_dot_star (s : string) : string :=
  match s with
  | "" => ""
  | String c s' =>
      if decide (nat_of_ascii c = 10%nat) then "" else String c (re_dot_star s')
  end.

(** [re.search("[0-9].*", s)]: the leftmost match, [None] without one. The
    value is the matched text, which is all [.group(0)] reads. *)
Fixpoint re_search_digit_dotstar (s : string) : option string :=
  match s with
  | "" => None
  | String c s' =>
      if is_digit c then Some (String c (re_dot_star s'))
      else re_search_digit_dotstar s'
  end.

Definition re_search (v : pyval) : res (option string) :=
  match v with
  | PStr s => Ok (re_search_digit_dotstar s)
  | _ => Raise TypeError
  end.

(** [m.group(0)] on the result of [re.search]. *)
Definition group0 (m : option string) : res string :=
  match m with
  | Some t => Ok t
  | None => Raise AttributeError
  end.

End Py.

(** ** The world outside the process *)

Module World.
Import Py.

(** The two fields of [datetime.datetime.now()] the program reads. *)
Record datetime : Type := { dt_year : Z; dt_month : Z }.

(** A [requests.Response]: its cookie jar, and what [.json()] gives
    ([None] when the body is not JSON). *)
Record response : Type := {
  cookies : list (string * string);
  json : option pyval
}.

(** What the process sends out, in order. *)
Inductive event : Type :=
| HttpGet (url : string) (jar : list (string * string))
| HttpPost (url : string) (jar headers : list (string * string)) (body : pyval)
| PlayerGames (agent username year month : string)
| WsConnect (url : string)
| WsSend (frame : string)
| WsClose.

(** The environment is scripted: the readings of the clock and of the random
    source, the replies the remote services will give (an exception when the
    call fails), the frames each web-socket connection will deliver
    ([None]: the peer closed). [client_user_agent] is the one global setting
    the program writes, [sent] the log of its outgoing traffic. *)
Record world : Type := {
  clock : nat → datetime;
  clock_pos : nat;
  rng : nat → nat;
  rng_pos : nat;
  user_agents : nat → string;
  http_replies : list (exn + response);
  api_replies : list (exn + pyval);
  sockets : list (exn + (nat → option string));
  client_user_agent : string;
  sent : list event
}.

Definition set_clock_pos (n : nat) (w : world) : world :=
  {| clock := clock w; clock_pos := n; rng := rng w; rng_pos := rng_pos w;
     user_agents := user_agents w; http_replies := http_replies w;
     api_replies := api_replies w; sockets := sockets w;
     client_user_agent := client_user_agent w; sent := sent w |}.

Definition set_rng_pos (n : nat) (w : world) : world :=
  {| clock := clock w; clock_pos := clock_pos w; rng := rng w; rng_pos := n;
     user_agents := user_agents w; http_replies := http_replies w;
     api_replies := api_replies w; sockets := sockets w;
     client_user_agent := client_user_agent w; sent := sent w |}.

Definition set_http_replies (l : list (exn + response)) (w : world) : world :=
  {| clock := clock w; clock_pos := clock_pos w; rng := rng w;
     rng_pos := rng_pos w; user_agents := user_agents w; http_replies := l;
     api_replies := api_replies w; sockets := sockets w;
     client_user_agent := client_user_agent w; sent := sent w |}.

Definition set_api_replies (l : list (exn + pyval)) (w : world) : world :=
  {| clock := clock w; clock_pos := clock_pos w; rng := rng w;
     rng_pos := rng_pos w; user_agents := user_agents w;
     http_replies := http_replies w; api_replies := l; sockets := sockets w;
     client_user_agent := client_user_agent w; sent := sent w |}.

Definition set_sockets (l : list (exn + (nat → option string))) (w : world)
  : world :=
  {| clock := clock w; clock_pos := clock_pos w; rng := rng w;
     rng_pos := rng_pos w; user_agents := user_agents w;
     http_replies := http_replies w; api_replies := api_replies w;
     sockets := l; client_user_agent := client_user_agent w; sent := sent w |}.

Definition set_client_user_agent (s : string) (w : world) : world :=
  {| clock := clock w; clock_pos := clock_pos w; rng := rng w;
     rng_pos := rng_pos w; user_agents := user_agents w;
     http_replies := http_replies w; api_replies := api_replies w;
     sockets := sockets w; client_user_agent := s; sent := sent w |}.

Definition set_sent (l : list event) (w : world) : world :=
  {| clock := clock w; clock_pos := clock_pos w; rng := rng w;
     rng_pos := rng_pos w; user_agents := user_agents w;
     http_replies := http_replies w; api_replies := api_replies w;
     sockets := sockets w; client_user_agent := client_user_agent w;
     sent := l |}.

(** *** Computations that act on the world *)

Definition M (A : Type) : Type := world → res A * world.

Definition ret {A} (a : A) : M A := λ w, (Ok a, w).

Definition bind {A B} (m : M A) (k : A → M B) : M B :=
  λ w, match m w with
       | (Ok a, w') => k a w'
       | (Raise e, w') => (Raise e, w')
       | (Pending, w') => (Pending, w')
       end.

Definition lift {A} (r : res A) : M A := λ w, (r, w).

Notation "'let!' x := m 'in' k" := (bind m (λ x, k))
  (at level 10, x name, m at level 100, k at level 200, only parsing).

Definition of_reply {A} (r : exn + A) : res A :=
  match r with
  | inl e => Raise e
  | inr a => Ok a
  end.

Definition log (ev : event) : M unit :=
  λ w, (Ok tt, set_sent (sent w ++ [ev]) w).

(** [datetime.datetime.now()] *)
Definition now : M datetime :=
  λ w, (Ok (clock w (clock_pos w)), set_clock_pos (S (clock_pos w)) w).

(** One draw of the random source: an index below [n]. *)
Definition randbelow (n : nat) : M nat :=
  λ w, (Ok (rng w (rng_pos w) mod n)%nat, set_rng_pos (S (rng_pos w)) w).

(** [''.join(random.choices(population, k=k))] *)
Fixpoint random_choices (population : string) (k : nat) : M string :=
  match k with
  | O => ret ""
  | S k' =>
      let! i := randbelow (String.length population) in
      let! s := random_choices population k' in
      ret (match str_nth i population with
           | Some c => String c s
           | None => s
           end)
  end.

(** [UserAgent().random] *)
Definition user_agent_random : M string :=
  λ w, (Ok (user_agents w (rng w (rng_pos w))), set_rng_pos (S (rng_pos w)) w).

(** The next scripted reply of the web services; none left is a failed
    connection. *)
Definition http_exchange (ev : event) : M response :=
  let! _ := log ev in
  λ w, match http_replies w with
       | [] => (Raise (ExternalError "ConnectionError"), w)
       | r :: l => (of_reply r, set_http_replies l w)
       end.

Definition requests_get (url : string) (jar : list (string * string))
  : M response :=
  http_exchange (HttpGet url jar).

Definition requests_post (url : string) (jar headers : list (string * string))
  (body : pyval) : M response :=
  http_exchange (HttpPost url jar headers body).

(** [response.cookies[name]] *)
Fixpoint jar_get (name : string) (jar : list (string * string))
  : option string :=
  match jar with
  | [] => None
  | (k, v) :: jar' => if decide (name = k) then Some v else jar_get name jar'
  end.

Definition cookie (r : response) (name : string) : res string :=
  match jar_get name (cookies r) with
  | Some v => Ok v
  | None => Raise (KeyError (PStr name))
  end.

(** [response.json()] *)
Definition response_json (r : response) : res pyval :=
  match json r with
  | Some v => Ok v
  | None => Raise JSONDecodeError
  end.

(** [get_player_games_by_month(username, year=year, month=month).json] *)
Definition get_player_games_by_month (username year month : string)
  : M pyval :=
  let! _ := (λ w, log (PlayerGames (client_user_agent w) username year month) w) in
  λ w, match api_replies w with
       | [] => (Raise (ExternalError "ConnectionError"), w)
       | r :: l => (of_reply r, set_api_replies l w)
       end.

(** An open web-socket connection: the frames the peer will deliver and how
    many of them were read. *)
Record connection : Type := {
  inbound : nat → option string;
  cursor : nat
}.

(** [websockets.connect(url)] *)
Definition websockets_connect (url : string) : M connection :=
  let! _ := log (WsConnect url) in
  λ w, match sockets w with
       | [] => (Raise (ExternalError "ConnectionError"), w)
       | r :: l =>
           (of_reply (sum_map id (λ f, {| inbound := f; cursor := 0 |}) r),
            set_sockets l w)
       end.

(** [await websocket.recv()] *)
Definition recv (c : connection) : res string * connection :=
  match inbound c (cursor c) with
  | Some frame => (Ok frame, {| inbound := inbound c; cursor := S (cursor c) |})
  | None => (Raise ConnectionClosed, c)
  end.

End World.

(** ** The class [ChessAnalyzer] *)

Module Analyzer.
Import Py World.

Definition CHESSKID_URL : string := "https://www.chesskid.com".
Definition ANALYSIS_WS_URL : string := "wss://analysis-va.chess.com/".
Definition ENGINE_TYPE : string := "stockfish16 nnue".
Definition TALLIES_LIST : list string :=
  ["brilliant"; "greatFind"; "best"; "excellent"; "good"; "book";
   "inaccuracy"; "mistake"; "miss"; "blunder"].

(** [string.ascii_uppercase + string.ascii_lowercase + string.digits] *)
Definition alphanumeric : string :=
  "ABCDEFGHIJKLMNOPQRSTUVWXYZabcdefghijklmnopqrstuvwxyz0123456789".

(** The class object: executing the [class] statement evaluates the default
    arguments of [get_game_number] and of [analyze_game], each a pair
    (year, month), and keeps them with the functions. *)
Record ChessAnalyzer : Type := {
  get_game_number_defaults : string * string;
  analyze_game_defaults : string * string
}.

Definition class_statement : M ChessAnalyzer :=
  let! t1 := now in
  let! t2 := now in
  let! t3 := now in
  let! t4 := now in
  ret {| get_game_number_defaults :=
           (int_repr (dt_year t1), int_repr (dt_month t2));
         analyze_game_defaults :=
           (int_repr (dt_year t3), int_repr (dt_month t4)) |}.

Definition __init__ (self : ChessAnalyzer) : M unit :=
  λ w, (Ok tt,
        set_client_user_agent
          "My Python Application.Contact me at email@example.com" w).

(** [v[k1][k2]...] *)
Fixpoint py_path (v : pyval) (ks : list string) : res pyval :=
  match ks with
  | [] => Ok v
  | k :: ks' => let* x := py_getitem v k in py_path x ks'
  end.

Definition __fetch_token (self : ChessAnalyzer) (PHPSESSID : string)
  : M pyval :=
  let! r := requests_get (CHESSKID_URL +:+ "/callback/auth/service/analysis")
                         [("PHPSESSID", PHPSESSID)] in
  let! body := lift (response_json r) in
  let! token := lift (py_getitem body "token") in
  ret token.

Definition __generate_account (self : ChessAnalyzer) : M pyval :=
  let! user := random_choices alphanumeric 15 in
  let! passwd := random_choices alphanumeric 20 in
  let! r0 := requests_get (CHESSKID_URL +:+ "/register/user-type") [] in
  let! PHPSESSID := lift (cookie r0 "PHPSESSID") in
  let json_data :=
    PDict [("avatarFilename", PStr "kid-1459.png");
           ("username", PStr user);
           ("userType", PStr "kid");
           ("password", PStr passwd);
           ("email", PStr (user +:+ "@gmail.com"))] in
  let! agent := user_agent_random in
  let! response :=
    requests_post (CHESSKID_URL +:+ "/callback/register/account")
                  [("PHPSESSID", PHPSESSID)] [("User-Agent", agent)]
                  json_data in
  let! body := lift (response_json response) in
  let! name := lift (py_path body ["user"; "username"]) in
  let! found := lift (py_contains user name) in
  if negb found then ret (PStr "ERROR GENERATING ACCOUNT.")
  else
    let! sid := lift (cookie response "PHPSESSID") in
    __fetch_token self sid.

(** The loop of [get_game_number]; [idx] is the counter of [enumerate]. *)
Fixpoint collect_games (idx : nat) (player_games : list pyval)
  (user_games : gmap nat pyval) : res (gmap nat pyval) :=
  match player_games with
  | [] => Ok user_games
  | games :: rest =>
      let* white := py_path games ["white"; "username"] in
      let* black := py_path games ["black"; "username"] in
      collect_games (S idx) rest
        (<[idx := PDict [("white", white); ("black", black)]]> user_games)
  end.

(** [year] and [month] are [None] when the caller leaves them out. *)
Definition get_game_number (self : ChessAnalyzer) (username : string)
  (year month : option string) : M (gmap nat pyval) :=
  let year := default (fst (get_game_number_defaults self)) year in
  let month := default (snd (get_game_number_defaults self)) month in
  let user_games : gmap nat pyval := ∅ in
  let! reply := get_player_games_by_month username year month in
  let! player_games := lift (py_getitem reply "games") in
  let! items := lift (py_iter player_games) in
  lift (collect_games 0 items user_games).

Section Codec.

(** [json.loads] ([None]: the text is not JSON) and [json.dumps]. *)
Variable loads : string → option pyval.
Variable dumps : pyval → string.

Definition json_loads (s : string) : res pyval :=
  match loads s with
  | Some v => Ok v
  | None => Raise JSONDecodeError
  end.

(** The [while True] loop of [__analyze_game_async]; [fuel] bounds the
    number of frames it may read. *)
Fixpoint recv_loop (fuel : nat) (websocket : connection)
  : res string * connection :=
  match fuel with
  | O => (Pending, websocket)
  | S fuel' =>
      match recv websocket with
      | (Ok game, websocket') =>
          match (let* msg := json_loads game in
                 let* action := py_getitem msg "action" in
                 Ok (py_eq_str action "analyzeGame")) with
          | Ok true => (Ok game, websocket')
          | Ok false => recv_loop fuel' websocket'
          | Raise e => (Raise e, websocket')
          | Pending => (Pending, websocket')
          end
      | (r, websocket') => (r, websocket')
      end
  end.

Definition analysis_request (pgn : pyval) (gameID : string) (token : pyval)
  : pyval :=
  PDict [("action", PStr "gameAnalysis");
         ("game", PDict [("pgn", pgn)]);
         ("options",
          PDict [("caps2", PBool true);
                 ("getNullMove", PBool true);
                 ("engineType", PStr ENGINE_TYPE);
                 ("source",
                  PDict [("gameId", PStr gameID);
                         ("gameType", PStr "live");
                         ("token", token);
                         ("client", PStr "web");
                         ("userTimeZone", PStr "Europe/Madrid")]);
                 ("tep",
                  PDict [("ceeDebug", PBool false);
                         ("lang", PStr "en_US");
                         ("speechv2", PBool true);
                         ("userColor", PStr "white");
                         ("classificationv3", PBool true)]);
                 ("strength", PStr "Maximum")])].

(** [async with] closes the connection when its body returns or raises; a
    body that is still waiting has not left it. *)
Definition __analyze_game_async (self : ChessAnalyzer) (pgn : pyval)
  (gameID : string) (fuel : nat) : M string :=
  let! token := __generate_account self in
  let! websocket := websockets_connect ANALYSIS_WS_URL in
  let data := analysis_request pgn gameID token in
  let! _ := log (WsSend (dumps data)) in
  match recv_loop fuel websocket with
  | (Pending, _) => lift Pending
  | (r, _) => let! _ := log WsClose in lift r
  end.

(** The dict comprehension over [TALLIES_LIST]. *)
Fixpoint move_rating (data : pyval) (color : string) (moves : list string)
  (acc : list (string * pyval)) : res (list (string * pyval)) :=
  match moves with
  | [] => Ok acc
  | move :: rest =>
      let* n := py_path data ["data"; "tallies"; color; move] in
      move_rating data color rest (dict_set move n acc)
  end.

(** [str(data["data"]["CAPS"][color][key])[:4]] *)
Definition caps_text (data : pyval) (color key : string) : res pyval :=
  let* v := py_path data ["data"; "CAPS"; color; key] in
  Ok (PStr (str_take 4 (py_str v))).

(** The body of the loop over the two colors in [__get_tallies]: the value
    stored under [result[color]]. *)
Definition color_entry (data usernames : pyval) (color : string)
  : res pyval :=
  let* username := py_getitem usernames color in
  let* effective_elo :=
    py_path data ["data"; "reportCard"; color; "effectiveElo"] in
  let* accuracy := caps_text data color "all" in
  let* open_acc := caps_text data color "gp0" in
  let* midd_acc := caps_text data color "gp1" in
  let* end_acc := caps_text data color "gp2" in
  let* ratings := move_rating data color TALLIES_LIST [] in
  Ok (PDict [("username", username);
             ("effective_elo", effective_elo);
             ("accuracy", accuracy);
             ("open_acc", open_acc);
             ("midd_acc", midd_acc);
             ("end_acc", end_acc);
             ("move_rating", PDict ratings)]).

Fixpoint color_entries (data usernames : pyval) (colors : list string)
  (result : list (string * pyval)) : res (list (string * pyval)) :=
  match colors with
  | [] => Ok result
  | color :: rest =>
      let* entry := color_entry data usernames color in
      color_entries data usernames rest (dict_set color entry result)
  end.

Definition __get_tallies (self : ChessAnalyzer) (game : string)
  (usernames : pyval) : res pyval :=
  let result : list (string * pyval) := [] in
  let* data := json_loads game in
  let* name := py_path data ["data"; "book"; "name"] in
  let* opening :=
    match str_split "," (py_str name) !! 0%nat with
    | Some s => Ok s
    | None => Raise IndexError
    end in
  let result := dict_set "opening" (PStr opening) result in
  let result := dict_set "engine" (PStr "StockFish 16 NNUE (Maximum)") result in
  let* result := color_entries data usernames ["white"; "black"] result in
  Ok (PDict result).

(** [player_games[game_number][k1][k2]...] *)
Definition game_field (player_games : pyval) (game_number : Z)
  (ks : list string) : res pyval :=
  let* g := py_index player_games game_number in
  py_path g ks.

(** The loop of [analyze_game] that fills [usernames]. *)
Fixpoint collect_usernames (player_games : pyval) (game_number : Z)
  (colors : list string) (usernames : list (string * pyval))
  : res (list (string * pyval)) :=
  match colors with
  | [] => Ok usernames
  | color :: rest =>
      let* u := game_field player_games game_number [color; "username"] in
      collect_usernames player_games game_number rest
        (dict_set color u usernames)
  end.

(** Lines 98 to 103 of [analyze_game]: from the month's games and the index
    to the move text, the game identifier and the two handles. *)
Definition locate_game (player_games : pyval) (game_number : Z)
  : res (pyval * string * pyval) :=
  let usernames : list (string * pyval) := [] in
  let* pgn := game_field player_games game_number ["pgn"] in
  let* url := game_field player_games game_number ["url"] in
  let* m := re_search url in
  let* gameID := group0 m in
  let* usernames :=
    collect_usernames player_games game_number ["white"; "black"] usernames in
  Ok (pgn, gameID, PDict usernames).

Definition analyze_game (self : ChessAnalyzer) (username : string)
  (game_number : Z) (year month : option string) (fuel : nat) : M pyval :=
  let year := default (fst (analyze_game_defaults self)) year in
  let month := default (snd (analyze_game_defaults self)) month in
  let! reply := get_player_games_by_month username year month in
  let! player_games := lift (py_getitem reply "games") in
  let! located := lift (locate_game player_games game_number) in
  let '(pgn, gameID, usernames) := located in
  let! game := __analyze_game_async self pgn gameID fuel in
  lift (__get_tallies self game usernames).

End Codec.

End Analyzer.

(** ** Vocabulary of the properties *)

Import Py World Analyzer.

(** A frame carries the action tag [a] when it decodes to an object with
    that value under ["action"]. *)
Definition tagged (loads : string → option pyval) (frame : string)
  (a : pyval) : Prop :=
  ∃ msg, loads frame = Some msg ∧ py_getitem msg "action" = Ok a.

Fixpoint str_all (p : ascii → bool) (s : string) : bool :=
  match s with
  | "" => true
  | String c s' => p c && str_all p s'
  end.

Definition all_digits (s : string) : bool := str_all is_digit s.
Definition no_digit (s : string) : bool := str_all (λ c, negb (is_digit c)) s.
Definition newline : ascii := ascii_of_nat 10.
Definition no_newline (s : string) : bool :=
  str_all (λ c, negb (bool_decide (nat_of_ascii c = 10%nat))) s.

(** The trailing path segment of a URL: what follows its last slash. *)
Fixpoint trailing_segment (url : string) : string :=
  match url with
  | "" => ""
  | String c s =>
      if str_mem "/" s then trailing_segment s
      else if decide (c = "/"%char) then s
      else String c s
  end.

(** Two worlds that differ at most in the log of what was sent. *)
Definition same_inputs (w w' : world) : Prop :=
  set_sent [] w = set_sent [] w'.

(** A computation is free of history when what it returns, what it sends
    and what it leaves of the scripted inputs depend on the inputs alone,
    not on the log of what earlier computations sent. *)
Definition history_free {A} (m : M A) : Prop :=
  ∀ w w', same_inputs w w' →
    fst (m w) = fst (m w') ∧
    same_inputs (snd (m w)) (snd (m w')) ∧
    ∃ new, sent (snd (m w)) = sent w ++ new ∧
           sent (snd (m w')) = sent w' ++ new.

(** A computation that does not read the clock. *)
Definition clock_untouched {A} (m : M A) : Prop :=
  ∀ w, clock_pos (snd (m w)) = clock_pos w.

(** ** Sample data *)

(** A decoder given by a table from frame texts to their values. *)
Definition table_loads (table : list (string * pyval)) (s : string)
  : option pyval :=
  dict_get s table.

Definition sample_game (url white black : string) : pyval :=
  PDict [("url", PStr url);
         ("pgn", PStr "1. e4 e5 2. Nf3 Nc6 3. Bc4 Bc5");
         ("white", PDict [("username", PStr white)]);
         ("black", PDict [("username", PStr black)])].

Definition sample_games : list pyval :=
  [sample_game "https://www.chess.com/game/live/12345678" "alice" "bob";
   sample_game "https://www.chess.com/game/live/87654321" "carol" "alice"].

Definition sample_tally : pyval :=
  PDict [("brilliant", PInt 0); ("greatFind", PInt 1); ("best", PInt 12);
         ("excellent", PInt 7); ("good", PInt 4); ("book", PInt 5);
         ("inaccuracy", PInt 2); ("mistake", PInt 1); ("miss", PInt 0);
         ("blunder", PInt 0)].

Definition sample_caps (all : pyfloat) : pyval :=
  PDict [("all", PFloat all);
         ("gp0", PInt 100);
         ("gp1", PFloat (FFinite false "955" 2));
         ("gp2", PFloat (FFinite false "8912345" 2))].

Definition sample_payload_with (tally_white : pyval) : pyval :=
  PDict
    [("action", PStr "analyzeGame");
     ("data",
      PDict
        [("book", PDict [("name", PStr "Italian Game, Giuoco Piano")]);
         ("reportCard",
          PDict [("white", PDict [("effectiveElo", PInt 1850)]);
                 ("black", PDict [("effectiveElo", PInt 1720)])]);
         ("CAPS",
          PDict [("white", sample_caps (FFinite false "97456" 2));
                 ("black", sample_caps (FFinite false "8825" 2))]);
         ("tallies",
          PDict [("white", tally_white); ("black", sample_tally)])])].

Definition sample_payload : pyval := sample_payload_with sample_tally.

(** The same payload without the label "miss" in white's tally. *)
Definition sample_payload_no_miss : pyval :=
  sample_payload_with
    (PDict [("brilliant", PInt 0); ("greatFind", PInt 1); ("best", PInt 12);
            ("excellent", PInt 7); ("good", PInt 4); ("book", PInt 5);
            ("inaccuracy", PInt 2); ("mistake", PInt 1);
            ("blunder", PInt 0)]).

(** The frame texts stand for JSON texts; [sample_loads] is their
    decoding. *)
Definition sample_loads : string → option pyval :=
  table_loads
    [("progress frame", PDict [("action", PStr "progress")]);
     ("analysis frame", sample_payload);
     ("analysis frame without miss", sample_payload_no_miss)].

Definition sample_dumps : pyval → string := py_repr.

(** Five progress frames, then the analysis, then the peer closes. *)
Definition sample_inbound (i : nat) : option string :=
  if (i <? 5)%nat then Some "progress frame"
  else if (i =? 5)%nat then Some "analysis frame"
  else None.

Definition sample_usernames : pyval :=
  PDict [("white", PStr "alice"); ("black", PStr "bob")].

(** The replies of one provisioning: session cookie, registration echoing
    [echo], token exchange giving [token]. *)
Definition provisioning_replies (echo : string) (token : pyval)
  : list (exn + response) :=
  [inr {| cookies := [("PHPSESSID", "anon-session")]; json := None |};
   inr {| cookies := [("PHPSESSID", "kid-session")];
          json := Some (PDict [("user", PDict [("username", PStr echo)])]) |};
   inr {| cookies := []; json := Some (PDict [("token", token)]) |}].

(** A world whose random source counts 0, 1, 2, ...: the first user name
    drawn is "ABCDEFGHIJKLMNO" and, 36 draws later, the second one is
    "klmnopqrstuvwxy". *)
Definition sample_world_with (http : list (exn + response))
  (socks : list (exn + (nat → option string))) : world :=
  {| clock := λ _, {| dt_year := 2024; dt_month := 3 |};
     clock_pos := 0;
     rng := λ n, n;
     rng_pos := 0;
     user_agents := λ _, "Mozilla/5.0";
     http_replies := http;
     api_replies := [inr (PDict [("games", PList sample_games)])];
     sockets := socks;
     client_user_agent := "";
     sent := [] |}.

Definition sample_world : world :=
  sample_world_with (provisioning_replies "ABCDEFGHIJKLMNO" (PStr "token-1"))
                    [inr sample_inbound].

Definition empty_token_world : world :=
  sample_world_with (provisioning_replies "ABCDEFGHIJKLMNO" (PStr ""))
                    [inr sample_inbound].

Definition echo_mismatch_world : world :=
  sample_world_with (provisioning_replies "somebody-else" (PStr "token-1"))
                    [inr sample_inbound].

(** Replies and connections for two calls in a row. *)
Definition two_calls_world : world :=
  sample_world_with
    (provisioning_replies "ABCDEFGHIJKLMNO" (PStr "token-1") ++
     provisioning_replies "klmnopqrstuvwxy" (PStr "token-2"))
    [inr sample_inbound; inr sample_inbound].

(** A world met later in the life of the process: its clock shows April. *)
Definition later_world : world :=
  {| clock := λ _, {| dt_year := 2024; dt_month := 4 |};
     clock_pos := 0;
     rng := λ n, n;
     rng_pos := 0;
     user_agents := λ _, "Mozilla/5.0";
     http_replies := [];
     api_replies := [inr (PDict [("games", PList sample_games)])];
     sockets := [];
     client_user_agent := "";
     sent := [] |}.

Definition sample_class : ChessAnalyzer :=
  {| get_game_number_defaults := ("2024", "3");
     analyze_game_defaults := ("2024", "3") |}.

(** A month with one game whose URL has a digit before its last segment. *)
Definition versioned_url : string :=
  "https://www.chess.com/v2/game/live/12345678".

Definition versioned_games : pyval :=
  PList [sample_game versioned_url "alice" "bob"].


(** ** Further vocabulary and sample data *)

(** A computation that leaves the part [f] of the world as it found it. *)
Definition keeps {A B} (f : world → B) (m : M A) : Prop :=
  ∀ w, f (snd (m w)) = f w.

(** The session reply comes without a cookie. *)
Definition no_cookie_world : world :=
  sample_world_with
    [inr {| cookies := []; json := None |};
     inr {| cookies := []; json := None |}]
    [inr sample_inbound].

(** Two progress frames, then the peer closes. *)
Definition closing_inbound (i : nat) : option string :=
  if (i <? 2)%nat then Some "progress frame" else None.

(** Two progress frames, then a frame that is not JSON. *)
Definition garbled_inbound (i : nat) : option string :=
  if (i <? 2)%nat then Some "progress frame" else Some "not a frame".

(** A month whose only game has a URL without any digit. *)
Definition digitless_games : pyval :=
  PList [sample_game "https://www.chess.com/game/live/" "alice" "bob"].

(** The three requests of a provisioning, as lines 34, 43 and 59 build
    them. *)
Definition session_request : event :=
  HttpGet (CHESSKID_URL +:+ "/register/user-type") [].

Definition registration_request (sid agent user passwd : string) : event :=
  HttpPost (CHESSKID_URL +:+ "/callback/register/account")
    [("PHPSESSID", sid)] [("User-Agent", agent)]
    (PDict [("avatarFilename", PStr "kid-1459.png");
            ("username", PStr user);
            ("userType", PStr "kid");
            ("password", PStr passwd);
            ("email", PStr (user +:+ "@gmail.com"))]).

Definition token_request (sid : string) : event :=
  HttpGet (CHESSKID_URL +:+ "/callback/auth/service/analysis")
    [("PHPSESSID", sid)].

(** [response.json()["token"]] *)
Definition token_of (r : response) : res pyval :=
  let* body := response_json r in py_getitem body "token".

(** The user agent drawn for the registration of a provisioning that starts
    in [w]: the 36th draw, after the 15 of the name and the 20 of the
    password. *)
Definition registration_agent (w : world) : string :=
  user_agents w (rng w (rng_pos w + 35)%nat).


(** A game-history request carries the user agent [ua]; other events carry
    none. *)
Definition carries (ua : string) (ev : event) : Prop :=
  match ev with
  | PlayerGames agent _ _ _ => agent = ua
  | _ => True
  end.

(** In a world whose client setting is [ua], the computation sends its
    game-history requests with [ua] and leaves the setting at [ua]. *)
Definition requests_carry {A} (ua : string) (m : M A) : Prop :=
  ∀ w, client_user_agent w = ua →
    client_user_agent (snd (m w)) = ua ∧
    ∃ new, sent (snd (m w)) = sent w ++ new ∧ Forall (carries ua) new.


(** A call that a program makes on an analyzer: creating one, listing a
    month, analysing a game. *)
Inductive call : Type :=
| Create (self : ChessAnalyzer)
| GetGameNumber (self : ChessAnalyzer) (username : string)
    (year month : option string)
| AnalyzeGame (self : ChessAnalyzer) (username : string) (game_number : Z)
    (year month : option string) (fuel : nat).

(** The world a call leaves, whatever it returned or raised. *)
Definition after_call (loads : string → option pyval)
  (dumps : pyval → string) (c : call) (w : world) : world :=
  match c with
  | Create self => snd (__init__ self w)
  | GetGameNumber self username year month =>
      snd (get_game_number self username year month w)
  | AnalyzeGame self username game_number year month fuel =>
      snd (analyze_game loads dumps self username game_number year month
             fuel w)
  end.

(** The world a sequence of calls leaves, made one after the other. *)
Definition after_calls (loads : string → option pyval)
  (dumps : pyval → string) (cs : list call) (w : world) : world :=
  fold_left (λ w c, after_call loads dumps c w) cs w.
(** ** Properties *)

(** *** Reading results, dicts and paths *)

Lemma rbind_Ok {A B} (r : res A) (k : A → res B) b :
  rbind r k = Ok b → ∃ a, r = Ok a ∧ k a = Ok b.
Proof. destruct r; cbn; [eauto|discriminate..]. Qed.

Lemma dict_get_set_eq k v d : dict_get k (dict_set k v d) = Some v.
Proof.
  induction d as [|[k' v'] d IH]; cbn.
  - by rewrite decide_True.
  - destruct (decide (k = k')) as [->|Hne]; cbn.
    + by rewrite decide_True.
    + by rewrite decide_False.
Qed.

Lemma dict_get_set_ne k k' v d :
  k ≠ k' → dict_get k (dict_set k' v d) = dict_get k d.
Proof.
  intros Hne. induction d as [|[k'' v''] d IH]; cbn.
  - by rewrite decide_False.
  - destruct (decide (k' = k'')) as [->|Hne']; cbn.
    + by rewrite !decide_False.
    + destruct (decide (k = k'')); [done|apply IH].
Qed.

Lemma dict_set_fresh k v d :
  k ∉ List.map fst d → dict_set k v d = d ++ [(k, v)].
Proof.
  induction d as [|[k' v'] d IH]; cbn; [done|].
  intros Hk. rewrite decide_False.
  - f_equal. apply IH. intros ?. apply Hk. by right.
  - intros ->. apply Hk. by left.
Qed.

Lemma py_path_snoc ks : ∀ v k,
  py_path v (ks ++ [k]) = let* x := py_path v ks in py_getitem x k.
Proof.
  induction ks as [|k' ks IH]; intros v k; cbn.
  - by destruct (py_getitem v k).
  - destruct (py_getitem v k'); cbn; [apply IH|done..].
Qed.

Lemma py_getitem_not_pending v k : py_getitem v k ≠ Pending.
Proof. destruct v; cbn; try done. by destruct (dict_get k d). Qed.

Lemma py_path_not_pending ks : ∀ v, py_path v ks ≠ Pending.
Proof.
  induction ks as [|k ks IH]; intros v; cbn; [done|].
  destruct (py_getitem v k) eqn:E; cbn; [apply IH|done|].
  by apply py_getitem_not_pending in E.
Qed.

Lemma recv_loop_discards loads inbound c fuel frame a :
  inbound c = Some frame →
  tagged loads frame a →
  a ≠ PStr "analyzeGame" →
  recv_loop loads (S fuel) {| inbound := inbound; cursor := c |} =
  recv_loop loads fuel {| inbound := inbound; cursor := S c |}.
Proof.
  intros Hin (msg & Hmsg & Ha) Hne.
  cbn [recv_loop]. unfold recv, json_loads. cbn [World.inbound World.cursor].
  rewrite Hin, Hmsg. cbn [rbind]. rewrite Ha. cbn [rbind].
  destruct a; try reflexivity.
  cbn [py_eq_str]. rewrite bool_decide_eq_false_2; [reflexivity|congruence].
Qed.

Lemma recv_loop_returns loads inbound c fuel game :
  inbound c = Some game →
  tagged loads game (PStr "analyzeGame") →
  recv_loop loads (S fuel) {| inbound := inbound; cursor := c |} =
  (Ok game, {| inbound := inbound; cursor := S c |}).
Proof.
  intros Hin (msg & Hmsg & Ha).
  cbn [recv_loop]. unfold recv, json_loads. cbn [World.inbound World.cursor].
  rewrite Hin, Hmsg. cbn [rbind]. rewrite Ha. reflexivity.
Qed.

Lemma recv_loop_from loads inbound n : ∀ c fuel game,
  (∀ i, (i < n)%nat → ∃ frame a,
     inbound (c + i)%nat = Some frame ∧ tagged loads frame a ∧
     a ≠ PStr "analyzeGame") →
  inbound (c + n)%nat = Some game →
  tagged loads game (PStr "analyzeGame") →
  (n < fuel)%nat →
  recv_loop loads fuel {| inbound := inbound; cursor := c |} =
  (Ok game, {| inbound := inbound; cursor := S (c + n) |}).
Proof.
  induction n as [|n IH]; intros c fuel game Hpre Hin Htag Hfuel.
  - destruct fuel as [|fuel]; [lia|].
    rewrite Nat.add_0_r in *. by apply recv_loop_returns.
  - destruct fuel as [|fuel]; [lia|].
    destruct (Hpre 0%nat) as (frame & a & Hf & Ha & Hne); [lia|].
    rewrite Nat.add_0_r in Hf.
    rewrite (recv_loop_discards _ _ _ _ _ _ Hf Ha Hne).
    replace (S (c + S n)) with (S (S c + n)) by lia.
    apply IH; [|by replace (S c + n)%nat with (c + S n)%nat by lia|done|lia].
    intros i Hi. destruct (Hpre (S i)) as (fr & b & ? & ? & ?); [lia|].
    exists fr, b. by replace (S c + i)%nat with (c + S i)%nat by lia.
Qed.

Lemma recv_loop_waits loads inbound n : ∀ c fuel,
  (∀ i, (i < n)%nat → ∃ frame a,
     inbound (c + i)%nat = Some frame ∧ tagged loads frame a ∧
     a ≠ PStr "analyzeGame") →
  (fuel ≤ n)%nat →
  recv_loop loads fuel {| inbound := inbound; cursor := c |} =
  (Pending, {| inbound := inbound; cursor := (c + fuel)%nat |}).
Proof.
  induction n as [|n IH]; intros c fuel Hpre Hfuel.
  - replace fuel with 0%nat by lia. by rewrite Nat.add_0_r.
  - destruct fuel as [|fuel]; [by rewrite Nat.add_0_r|].
    destruct (Hpre 0%nat) as (frame & a & Hf & Ha & Hne); [lia|].
    rewrite Nat.add_0_r in Hf.
    rewrite (recv_loop_discards _ _ _ _ _ _ Hf Ha Hne).
    replace (c + S fuel)%nat with (S c + fuel)%nat by lia.
    apply IH; [|lia].
    intros i Hi. destruct (Hpre (S i)) as (fr & b & ? & ? & ?); [lia|].
    exists fr, b. by replace (S c + i)%nat with (c + S i)%nat by lia.
Qed.

(** A frame that is not JSON, or has no "action" entry, ends the loop with
    the exception of the failed step. *)
Lemma recv_loop_malformed loads inbound c fuel frame :
  inbound c = Some frame →
  (loads frame = None ∨
   ∃ msg, loads frame = Some msg ∧ ∀ a, py_getitem msg "action" ≠ Ok a) →
  ∃ e, fst (recv_loop loads (S fuel) {| inbound := inbound; cursor := c |})
       = Raise e.
Proof.
  intros Hin Hbad.
  cbn [recv_loop]. unfold recv, json_loads. cbn [World.inbound World.cursor].
  rewrite Hin. destruct Hbad as [Hnone|(msg & Hmsg & Hno)].
  - rewrite Hnone. cbn. eauto.
  - rewrite Hmsg. cbn [rbind].
    destruct (py_getitem msg "action") as [a|e|] eqn:Ha.
    + by destruct (Hno a).
    + cbn. eauto.
    + by apply py_getitem_not_pending in Ha.
Qed.

(** C1. On a fresh connection whose first [n] frames carry an action tag
    other than "analyzeGame" and whose next frame carries the tag
    "analyzeGame", the receive loop returns exactly that frame, for every
    [n] (0, 1 or many): it has read the [n + 1] frames one by one and none
    beyond, and it does not return before that frame (with fuel for at most
    [n] reads it is still waiting). *)
Theorem recv_loop_first_completion loads inbound n game :
  (∀ i, (i < n)%nat → ∃ frame a,
     inbound i = Some frame ∧ tagged loads frame a ∧
     a ≠ PStr "analyzeGame") →
  inbound n = Some game →
  tagged loads game (PStr "analyzeGame") →
  (∀ fuel, (n < fuel)%nat →
     recv_loop loads fuel {| inbound := inbound; cursor := 0 |} =
     (Ok game, {| inbound := inbound; cursor := S n |})) ∧
  (∀ fuel, (fuel ≤ n)%nat →
     fst (recv_loop loads fuel {| inbound := inbound; cursor := 0 |}) =
     Pending).
Proof.
  intros Hpre Hin Htag. split.
  - intros fuel Hfuel.
    by apply (recv_loop_from loads inbound n 0%nat fuel game).
  - intros fuel Hfuel.
    by rewrite (recv_loop_waits loads inbound n 0%nat fuel).
Qed.

(** *** Listing the games of a month *)

Lemma collect_games_lookup items : ∀ idx m m',
  collect_games idx items m = Ok m' →
  (∀ i, (i < idx ∨ idx + length items ≤ i)%nat → m' !! i = m !! i) ∧
  (∀ j g, items !! j = Some g →
     ∃ wh bl,
       py_path g ["white"; "username"] = Ok wh ∧
       py_path g ["black"; "username"] = Ok bl ∧
       m' !! (idx + j)%nat = Some (PDict [("white", wh); ("black", bl)])).
Proof.
  induction items as [|games rest IH]; intros idx m m' Hrun.
  - cbn in Hrun. injection Hrun as <-. split; [done|]. intros j g Hj.
    by rewrite lookup_nil in Hj.
  - cbn [collect_games] in Hrun.
    destruct (py_path games ["white"; "username"]) as [wh| |] eqn:Hwh;
      try discriminate.
    destruct (py_path games ["black"; "username"]) as [bl| |] eqn:Hbl;
      try discriminate.
    cbn [rbind] in Hrun. apply IH in Hrun as [Hout Hin]. split.
    + intros i Hi. cbn [length] in Hi. rewrite Hout by lia.
      apply lookup_insert_ne. lia.
    + intros [|j] g Hj.
      * cbn in Hj. injection Hj as <-. exists wh, bl.
        split; [done|]. split; [done|].
        rewrite Nat.add_0_r, Hout by lia. apply lookup_insert_eq.
      * cbn in Hj. destruct (Hin j g Hj) as (wh' & bl' & ? & ? & Hl).
        exists wh', bl'. split; [done|]. split; [done|].
        by replace (idx + S j)%nat with (S idx + j)%nat by lia.
Qed.

Lemma collect_games_total items : ∀ idx m,
  (∀ g, g ∈ items →
     ∃ wh bl, py_path g ["white"; "username"] = Ok wh ∧
              py_path g ["black"; "username"] = Ok bl) →
  ∃ m', collect_games idx items m = Ok m'.
Proof.
  induction items as [|games rest IH]; intros idx m Hwf.
  - by exists m.
  - destruct (Hwf games) as (wh & bl & Hwh & Hbl); [by left|].
    cbn [collect_games]. rewrite Hwh, Hbl. cbn [rbind].
    apply IH. intros g Hg. apply Hwf. by right.
Qed.

Lemma get_game_number_run self username year month w reply rest games :
  api_replies w = inr reply :: rest →
  py_getitem reply "games" = Ok (PList games) →
  fst (get_game_number self username year month w) =
  collect_games 0 games ∅.
Proof.
  intros Hw Hgames.
  unfold get_game_number, get_player_games_by_month, bind, log, lift.
  cbn. rewrite Hw. cbn. rewrite Hgames. reflexivity.
Qed.

(** C7. When the game-history service answers with a list of [N] games,
    [get_game_number] returns a mapping whose keys are exactly 0..N-1, the
    entry at key [i] holding the white and black handles of the [i]-th game
    of the answer, in the order of the answer; it does return one whenever
    every game of the answer carries both handles. *)
Theorem get_game_number_indexes self username year month w reply rest games :
  api_replies w = inr reply :: rest →
  py_getitem reply "games" = Ok (PList games) →
  ((∀ g, g ∈ games →
      ∃ wh bl, py_path g ["white"; "username"] = Ok wh ∧
               py_path g ["black"; "username"] = Ok bl) →
   ∃ user_games,
     fst (get_game_number self username year month w) = Ok user_games) ∧
  (∀ user_games,
     fst (get_game_number self username year month w) = Ok user_games →
     (∀ i, i ∈ dom user_games ↔ (i < length games)%nat) ∧
     (∀ i g, games !! i = Some g →
        ∃ wh bl,
          py_path g ["white"; "username"] = Ok wh ∧
          py_path g ["black"; "username"] = Ok bl ∧
          user_games !! i = Some (PDict [("white", wh); ("black", bl)]))).
Proof.
  intros Hw Hgames.
  rewrite (get_game_number_run _ _ _ _ _ _ _ _ Hw Hgames). split.
  - intros Hwf. by apply collect_games_total.
  - intros user_games Hrun.
    apply collect_games_lookup in Hrun as [Hout Hin]. split.
    + intros i. rewrite elem_of_dom. split.
      * intros Hsome. destruct (decide (i < length games)%nat); [done|].
        rewrite Hout, lookup_empty in Hsome by lia. by destruct Hsome.
      * intros Hi. apply lookup_lt_is_Some_2 in Hi as [g Hg].
        destruct (Hin i g Hg) as (wh & bl & _ & _ & Hl). eauto.
    + intros i g Hg. destruct (Hin i g Hg) as (wh & bl & ? & ? & Hl).
      eauto.
Qed.

(** *** The move-quality tallies *)

Lemma move_rating_lookup data color moves : ∀ acc ratings,
  move_rating data color moves acc = Ok ratings →
  (∀ l, l ∈ moves →
     ∃ n, py_path data ["data"; "tallies"; color; l] = Ok n ∧
          dict_get l ratings = Some n) ∧
  (∀ l, l ∉ moves → dict_get l ratings = dict_get l acc).
Proof.
  induction moves as [|move rest IH]; intros acc ratings Hrun.
  - cbn in Hrun. injection Hrun as <-. split; [|done].
    intros l Hl. by apply elem_of_nil in Hl.
  - cbn [move_rating] in Hrun.
    apply rbind_Ok in Hrun as (n & Hn & Hrun).
    apply IH in Hrun as [Hin Hout]. split.
    + intros l Hl. destruct (decide (l ∈ rest)) as [Hr|Hr]; [by apply Hin|].
      apply elem_of_cons in Hl as [->|Hl]; [|done].
      exists n. split; [done|]. rewrite Hout by done. apply dict_get_set_eq.
    + intros l Hl. apply not_elem_of_cons in Hl as [Hne Hl].
      rewrite Hout by done. by apply dict_get_set_ne.
Qed.

Lemma move_rating_keys data color moves : ∀ acc ratings,
  move_rating data color moves acc = Ok ratings →
  NoDup (List.map fst acc ++ moves) →
  List.map fst ratings = List.map fst acc ++ moves.
Proof.
  induction moves as [|move rest IH]; intros acc ratings Hrun Hnd.
  - cbn in Hrun. injection Hrun as <-. by rewrite app_nil_r.
  - cbn [move_rating] in Hrun.
    apply rbind_Ok in Hrun as (n & Hn & Hrun).
    assert (move ∉ List.map fst acc) as Hfresh.
    { apply NoDup_app in Hnd as (_ & Hd & _). intros Hm.
      apply (Hd _ Hm). by left. }
    rewrite dict_set_fresh in Hrun by done.
    apply IH in Hrun.
    + rewrite Hrun, map_app. cbn. by rewrite <- app_assoc.
    + rewrite map_app. cbn. by rewrite <- app_assoc.
Qed.

Lemma move_rating_missing data color d moves : ∀ acc,
  py_path data ["data"; "tallies"; color] = Ok (PDict d) →
  (∃ l, l ∈ moves ∧ dict_get l d = None) →
  ∃ l, l ∈ moves ∧ dict_get l d = None ∧
       move_rating data color moves acc = Raise (KeyError (PStr l)).
Proof.
  intros acc Hd. revert acc.
  induction moves as [|move rest IH]; intros acc (l & Hl & Hmiss).
  - by apply elem_of_nil in Hl.
  - cbn [move_rating].
    change ["data"; "tallies"; color; move]
      with (["data"; "tallies"; color] ++ [move]).
    rewrite py_path_snoc, Hd. cbn [rbind py_getitem].
    destruct (dict_get move d) as [n|] eqn:Hmove.
    + cbn [rbind]. destruct (IH (dict_set move n acc)) as (l' & ? & ? & ?).
      * apply elem_of_cons in Hl as [->|Hl]; [congruence|eauto].
      * exists l'. split; [by right|done].
    + exists move. split; [by left|done].
Qed.

Lemma move_rating_not_pending data color moves : ∀ acc,
  move_rating data color moves acc ≠ Pending.
Proof.
  induction moves as [|move rest IH]; intros acc; cbn [move_rating]; [done|].
  destruct (py_path data ["data"; "tallies"; color; move]) eqn:E;
    cbn [rbind]; [apply IH|done|].
  by apply py_path_not_pending in E.
Qed.

Lemma rbind_not_pending {A B} (r : res A) (k : A → res B) :
  r ≠ Pending → (∀ a, k a ≠ Pending) → rbind r k ≠ Pending.
Proof. destruct r; cbn; auto. Qed.

Lemma caps_text_not_pending data color key :
  caps_text data color key ≠ Pending.
Proof.
  unfold caps_text. apply rbind_not_pending; [apply py_path_not_pending|done].
Qed.

Lemma color_entry_not_pending data usernames color :
  color_entry data usernames color ≠ Pending.
Proof.
  unfold color_entry.
  repeat (apply rbind_not_pending;
          [first [apply py_getitem_not_pending | apply py_path_not_pending
                 | apply caps_text_not_pending
                 | apply move_rating_not_pending]
          |intros ?]).
  done.
Qed.

Lemma color_entries_not_pending data usernames colors : ∀ result,
  color_entries data usernames colors result ≠ Pending.
Proof.
  induction colors as [|color rest IH]; intros result; cbn; [done|].
  apply rbind_not_pending; [apply color_entry_not_pending|]. intros ?. apply IH.
Qed.

Lemma get_tallies_not_pending loads self game usernames :
  __get_tallies loads self game usernames ≠ Pending.
Proof.
  unfold __get_tallies.
  apply rbind_not_pending; [unfold json_loads; by destruct (loads game)|].
  intros data. apply rbind_not_pending; [apply py_path_not_pending|].
  intros name. apply rbind_not_pending; [by destruct (_ !! _)|].
  intros opening.
  apply rbind_not_pending; [apply color_entries_not_pending|done].
Qed.

Lemma color_entries_lookup data usernames colors : ∀ result r,
  color_entries data usernames colors result = Ok r →
  (∀ c, c ∈ colors →
     ∃ e, color_entry data usernames c = Ok e ∧ dict_get c r = Some e) ∧
  (∀ k, k ∉ colors → dict_get k r = dict_get k result).
Proof.
  induction colors as [|color rest IH]; intros result r Hrun.
  - cbn in Hrun. injection Hrun as <-. split; [|done].
    intros c Hc. by apply elem_of_nil in Hc.
  - cbn [color_entries] in Hrun.
    apply rbind_Ok in Hrun as (e & He & Hrun).
    apply IH in Hrun as [Hin Hout]. split.
    + intros c Hc. destruct (decide (c ∈ rest)) as [Hr|Hr]; [by apply Hin|].
      apply elem_of_cons in Hc as [->|Hc]; [|done].
      exists e. split; [done|]. rewrite Hout by done. apply dict_get_set_eq.
    + intros k Hk. apply not_elem_of_cons in Hk as [Hne Hk].
      rewrite Hout by done. by apply dict_get_set_ne.
Qed.

(** What a returned summary is made of. *)
Lemma get_tallies_Ok loads self game usernames r :
  __get_tallies loads self game usernames = Ok r →
  ∃ data name opening d,
    loads game = Some data ∧
    py_path data ["data"; "book"; "name"] = Ok name ∧
    str_split "," (py_str name) !! 0%nat = Some opening ∧
    r = PDict d ∧
    dict_get "opening" d = Some (PStr opening) ∧
    dict_get "engine" d = Some (PStr "StockFish 16 NNUE (Maximum)") ∧
    ∀ c, c ∈ ["white"; "black"] →
      ∃ e, color_entry data usernames c = Ok e ∧ dict_get c d = Some e.
Proof.
  unfold __get_tallies, json_loads. intros Hrun.
  apply rbind_Ok in Hrun as (data & Hdata & Hrun).
  apply rbind_Ok in Hrun as (name & Hname & Hrun).
  apply rbind_Ok in Hrun as (opening & Hopening & Hrun).
  apply rbind_Ok in Hrun as (d & Hd & Hrun).
  injection Hrun as <-.
  apply color_entries_lookup in Hd as [Hin Hout].
  exists data, name, opening, d.
  destruct (loads game) as [data'|]; [|discriminate].
  injection Hdata as ->.
  destruct (str_split "," (py_str name) !! 0%nat) as [s|]; [|discriminate].
  injection Hopening as ->.
  repeat split; try done.
  - rewrite Hout; [reflexivity|].
    intros H. repeat (apply elem_of_cons in H as [H|H]; [discriminate|]).
    by apply elem_of_nil in H.
  - rewrite Hout; [reflexivity|].
    intros H. repeat (apply elem_of_cons in H as [H|H]; [discriminate|]).
    by apply elem_of_nil in H.
Qed.

Lemma color_entry_Ok data usernames color e :
  color_entry data usernames color = Ok e →
  ∃ username effective_elo accuracy open_acc midd_acc end_acc ratings,
    py_getitem usernames color = Ok username ∧
    py_path data ["data"; "reportCard"; color; "effectiveElo"]
      = Ok effective_elo ∧
    caps_text data color "all" = Ok accuracy ∧
    caps_text data color "gp0" = Ok open_acc ∧
    caps_text data color "gp1" = Ok midd_acc ∧
    caps_text data color "gp2" = Ok end_acc ∧
    move_rating data color TALLIES_LIST [] = Ok ratings ∧
    e = PDict [("username", username);
               ("effective_elo", effective_elo);
               ("accuracy", accuracy);
               ("open_acc", open_acc);
               ("midd_acc", midd_acc);
               ("end_acc", end_acc);
               ("move_rating", PDict ratings)].
Proof.
  unfold color_entry. intros Hrun.
  apply rbind_Ok in Hrun as (username & ? & Hrun).
  apply rbind_Ok in Hrun as (effective_elo & ? & Hrun).
  apply rbind_Ok in Hrun as (accuracy & ? & Hrun).
  apply rbind_Ok in Hrun as (open_acc & ? & Hrun).
  apply rbind_Ok in Hrun as (midd_acc & ? & Hrun).
  apply rbind_Ok in Hrun as (end_acc & ? & Hrun).
  apply rbind_Ok in Hrun as (ratings & ? & Hrun).
  injection Hrun as <-.
  by exists username, effective_elo, accuracy, open_acc, midd_acc, end_acc,
            ratings.
Qed.

(** C3. Whenever [__get_tallies] returns a summary, the tally of each color
    has exactly the labels of [TALLIES_LIST], each with the count the payload
    gives for it; when the payload's tally of a color lacks a label, the
    dict comprehension raises [KeyError] for a missing label and
    [__get_tallies] raises instead of returning a summary without it
    ([KeyError] is what the spec calls a malformed-response failure). *)
Theorem get_tallies_labels_total loads self game usernames data :
  loads game = Some data →
  (∀ r, __get_tallies loads self game usernames = Ok r →
     ∀ color, color ∈ ["white"; "black"] →
       ∃ ratings,
         py_path r [color; "move_rating"] = Ok (PDict ratings) ∧
         List.map fst ratings = TALLIES_LIST ∧
         ∀ label, label ∈ TALLIES_LIST →
           ∃ n, py_path data ["data"; "tallies"; color; label] = Ok n ∧
                dict_get label ratings = Some n) ∧
  (∀ color d,
     color ∈ ["white"; "black"] →
     py_path data ["data"; "tallies"; color] = Ok (PDict d) →
     (∃ label, label ∈ TALLIES_LIST ∧ dict_get label d = None) →
     (∃ label, label ∈ TALLIES_LIST ∧ dict_get label d = None ∧
        move_rating data color TALLIES_LIST [] =
        Raise (KeyError (PStr label))) ∧
     ∃ e, __get_tallies loads self game usernames = Raise e).
Proof.
  intros Hdata. split.
  - intros r Hrun color Hcolor.
    apply get_tallies_Ok in Hrun
      as (data' & _ & _ & d & Hdata' & _ & _ & -> & _ & _ & Hcolors).
    rewrite Hdata in Hdata'. injection Hdata' as <-.
    destruct (Hcolors color Hcolor) as (e & He & Hget).
    apply color_entry_Ok in He
      as (? & ? & ? & ? & ? & ? & ratings & _ & _ & _ & _ & _ & _ & Hr & ->).
    exists ratings. split.
    { cbn [py_path py_getitem]. rewrite Hget. reflexivity. }
    split.
    { apply (move_rating_keys _ _ _ [] _ Hr). cbn.
      unfold TALLIES_LIST. compute_done. }
    apply (move_rating_lookup _ _ _ _ _ Hr).
  - intros color d Hcolor Hd Hmiss. split.
    { by apply move_rating_missing. }
    destruct (__get_tallies loads self game usernames) as [r|e|] eqn:Hrun.
    + exfalso.
      apply get_tallies_Ok in Hrun
        as (data' & _ & _ & d' & Hdata' & _ & _ & -> & _ & _ & Hcolors).
      rewrite Hdata in Hdata'. injection Hdata' as <-.
      destruct (Hcolors color Hcolor) as (e & He & _).
      apply color_entry_Ok in He
        as (? & ? & ? & ? & ? & ? & ratings & _ & _ & _ & _ & _ & _ & Hr & _).
      destruct (move_rating_missing data color d TALLIES_LIST [] Hd Hmiss)
        as (l & _ & _ & Hraise).
      congruence.
    + eauto.
    + by apply get_tallies_not_pending in Hrun.
Qed.

(** *** Accuracy figures and opening name *)

Lemma str_take_drop n : ∀ s, s = str_take n s +:+ str_drop n s.
Proof.
  induction n as [|n IH]; intros [|c s]; cbn; try done.
  change (String c s = String c (str_take n s +:+ str_drop n s)).
  by rewrite <- IH.
Qed.

Lemma str_take_length n : ∀ s,
  String.length (str_take n s) = Nat.min n (String.length s).
Proof.
  induction n as [|n IH]; intros [|c s]; cbn; try done.
  by rewrite IH.
Qed.

Lemma caps_text_Ok data color key t :
  caps_text data color key = Ok t →
  ∃ v, py_path data ["data"; "CAPS"; color; key] = Ok v ∧
       t = PStr (str_take 4 (py_str v)).
Proof.
  unfold caps_text. intros H. apply rbind_Ok in H as (v & Hv & H).
  injection H as <-. eauto.
Qed.

(** C4. In every summary [__get_tallies] returns, each of the four accuracy
    entries of each color (overall, opening, middlegame, endgame) is the
    text of the first four characters of [str] of the payload's value: a
    prefix of that text, of length four or of the whole text when it is
    shorter. Nothing is rounded: the float 97.456 gives "97.4". *)
Theorem get_tallies_accuracy_truncated loads self game usernames data r :
  loads game = Some data →
  __get_tallies loads self game usernames = Ok r →
  (∀ color field key,
     color ∈ ["white"; "black"] →
     (field, key) ∈ [("accuracy", "all"); ("open_acc", "gp0");
                     ("midd_acc", "gp1"); ("end_acc", "gp2")] →
     ∃ v t,
       py_path data ["data"; "CAPS"; color; key] = Ok v ∧
       py_path r [color; field] = Ok (PStr t) ∧
       t = str_take 4 (py_str v) ∧
       (∃ rest, py_str v = t +:+ rest) ∧
       String.length t = Nat.min 4 (String.length (py_str v))) ∧
  str_take 4 (py_str (PFloat (FFinite false "97456" 2))) = "97.4".
Proof.
  intros Hdata Hrun. split; [|reflexivity].
  intros color field key Hcolor Hfield.
  apply get_tallies_Ok in Hrun
    as (data' & _ & _ & d & Hdata' & _ & _ & -> & _ & _ & Hcolors).
  rewrite Hdata in Hdata'. injection Hdata' as <-.
  destruct (Hcolors color Hcolor) as (e & He & Hget).
  apply color_entry_Ok in He
    as (? & ? & acc & oacc & macc & eacc & ? & _ & _ &
        Hacc & Hoacc & Hmacc & Heacc & _ & ->).
  apply caps_text_Ok in Hacc as (v0 & Hv0 & ->).
  apply caps_text_Ok in Hoacc as (v1 & Hv1 & ->).
  apply caps_text_Ok in Hmacc as (v2 & Hv2 & ->).
  apply caps_text_Ok in Heacc as (v3 & Hv3 & ->).
  assert (∀ v, (∃ rest, py_str v = str_take 4 (py_str v) +:+ rest) ∧
               String.length (str_take 4 (py_str v)) =
               Nat.min 4 (String.length (py_str v))) as Hcut.
  { intros v. split; [|apply str_take_length].
    exists (str_drop 4 (py_str v)). apply str_take_drop. }
  cbn [py_path py_getitem]. rewrite Hget. cbn [rbind].
  repeat (apply elem_of_cons in Hfield as [Hfield|Hfield];
          [injection Hfield as -> ->;
           eexists _, _; split; [eassumption|];
           split; [reflexivity|]; split; [reflexivity|]; apply Hcut|]).
  by apply elem_of_nil in Hfield.
Qed.

Lemma str_split_head c : ∀ s,
  ∃ w ws, str_split c s = w :: ws ∧ str_mem c w = false ∧
          (s = w ∨ ∃ rest, s = w +:+ String c rest).
Proof.
  induction s as [|a s (w & ws & Hs & Hw & Hrest)].
  - exists "", []. cbn. auto.
  - cbn [str_split]. destruct (decide (a = c)) as [->|Hne].
    + exists "", (str_split c s). split; [done|]. split; [done|].
      right. by exists s.
    + rewrite Hs. exists (String a w), ws. split; [done|]. split.
      * cbn. rewrite decide_False by congruence. done.
      * destruct Hrest as [->|(rest & ->)]; [by left|].
        right. by exists rest.
Qed.

(** C8. In every summary [__get_tallies] returns, the opening is the first
    comma-delimited segment of the text of the payload's book-opening name:
    it contains no comma, and the name is either that segment alone or that
    segment, a comma and a remainder. The name "Italian Game, Giuoco Piano"
    gives the opening "Italian Game". *)
Theorem get_tallies_opening_first_segment loads self game usernames data r :
  loads game = Some data →
  __get_tallies loads self game usernames = Ok r →
  ∃ name opening,
    py_path data ["data"; "book"; "name"] = Ok name ∧
    py_path r ["opening"] = Ok (PStr opening) ∧
    str_mem "," opening = false ∧
    (py_str name = opening ∨
     ∃ rest, py_str name = opening +:+ "," +:+ rest) ∧
    (name = PStr "Italian Game, Giuoco Piano" → opening = "Italian Game").
Proof.
  intros Hdata Hrun.
  apply get_tallies_Ok in Hrun
    as (data' & name & opening & d & Hdata' & Hname & Hsplit & -> & Hop & _).
  rewrite Hdata in Hdata'. injection Hdata' as <-.
  exists name, opening. split; [done|]. split.
  { cbn [py_path py_getitem]. by rewrite Hop. }
  destruct (str_split_head "," (py_str name)) as (w & ws & Hs & Hw & Hrest).
  rewrite Hs in Hsplit. injection Hsplit as <-.
  split; [done|]. split; [done|].
  intros ->. vm_compute in Hs. by injection Hs as <- _.
Qed.

(** *** Looking a game up *)

Lemma app_cons c s t : String c s +:+ t = String c (s +:+ t).
Proof. reflexivity. Qed.

Lemma app_empty_l t : "" +:+ t = t.
Proof. reflexivity. Qed.

Lemma app_empty_r s : s +:+ "" = s.
Proof. induction s as [|c s IH]; [done|]. by rewrite app_cons, IH. Qed.

Lemma app_assoc_str s : ∀ t u, (s +:+ t) +:+ u = s +:+ t +:+ u.
Proof.
  induction s as [|c s IH]; intros t u; [done|].
  by rewrite !app_cons, IH.
Qed.

Lemma re_dot_star_split s :
  ∃ post, s = re_dot_star s +:+ post ∧
          no_newline (re_dot_star s) = true ∧
          (post = "" ∨ ∃ p, post = String newline p).
Proof.
  induction s as [|c s (post & Hs & Hnl & Hpost)].
  - exists "". auto.
  - cbn [re_dot_star]. destruct (decide (nat_of_ascii c = 10%nat)) as [Hc|Hc].
    + exists (String c s). split; [done|]. split; [done|].
      right. exists s. f_equal. unfold newline.
      by rewrite <- Hc, ascii_nat_embedding.
    + exists post. rewrite app_cons, <- Hs. split; [done|]. split; [|done].
      cbn [no_newline str_all]. rewrite bool_decide_eq_false_2 by done.
      exact Hnl.
Qed.

Lemma re_search_split s : ∀ m,
  re_search_digit_dotstar s = Some m →
  ∃ pre c rest,
    s = pre +:+ String c rest ∧ no_digit pre = true ∧
    is_digit c = true ∧ m = String c (re_dot_star rest).
Proof.
  induction s as [|a s IH]; intros m Hm; [done|].
  cbn [re_search_digit_dotstar] in Hm. destruct (is_digit a) eqn:Ha.
  - injection Hm as <-. by exists "", a, s.
  - destruct (IH m Hm) as (pre & c & rest & -> & Hpre & Hc & ->).
    exists (String a pre), c, rest. split; [done|]. split; [|done].
    cbn [no_digit str_all]. by rewrite Ha.
Qed.

Lemma all_digits_dot_star ds : all_digits ds = true → re_dot_star ds = ds.
Proof.
  induction ds as [|c ds IH]; [done|].
  cbn [all_digits str_all re_dot_star]. intros [Hc Hds]%andb_true_iff.
  rewrite decide_False; [by rewrite IH|].
  intros Hnl. unfold is_digit in Hc. rewrite Hnl in Hc. done.
Qed.

Lemma re_search_digits pre : ∀ ds,
  no_digit pre = true → all_digits ds = true → ds ≠ "" →
  re_search_digit_dotstar (pre +:+ ds) = Some ds.
Proof.
  induction pre as [|a pre IH]; intros ds Hpre Hds Hne.
  - rewrite app_empty_l. destruct ds as [|c ds]; [done|].
    cbn [all_digits str_all] in Hds. apply andb_true_iff in Hds as [Hc Hds].
    cbn [re_search_digit_dotstar]. rewrite Hc.
    by rewrite all_digits_dot_star.
  - cbn [no_digit str_all] in Hpre. apply andb_true_iff in Hpre as [Ha Hpre].
    rewrite app_cons. cbn [re_search_digit_dotstar].
    apply negb_true_iff in Ha. rewrite Ha. by apply IH.
Qed.

Lemma all_digits_no_slash ds : all_digits ds = true → str_mem "/" ds = false.
Proof.
  induction ds as [|c ds IH]; [done|].
  cbn [all_digits str_all str_mem]. intros [Hc Hds]%andb_true_iff.
  rewrite decide_False; [by apply IH|].
  intros <-. done.
Qed.

Lemma str_mem_app c s : ∀ t, str_mem c (t +:+ String c s) = true.
Proof.
  induction t as [|a t IH].
  - rewrite app_empty_l. cbn. by rewrite decide_True.
  - rewrite app_cons. cbn [str_mem]. rewrite IH. by destruct (decide _).
Qed.

Lemma trailing_segment_app ds : ∀ head,
  str_mem "/" ds = false →
  trailing_segment (head +:+ String "/" ds) = ds.
Proof.
  induction head as [|a head IH]; intros Hds.
  - rewrite app_empty_l. cbn [trailing_segment]. rewrite Hds.
    by rewrite decide_True.
  - rewrite app_cons. cbn [trailing_segment]. rewrite str_mem_app. by apply IH.
Qed.

Lemma no_digit_app s : ∀ t,
  no_digit t = true → no_digit s = true → no_digit (t +:+ s) = true.
Proof.
  induction t as [|a t IH]; intros Ht Hs; [done|].
  rewrite app_cons. cbn [no_digit str_all] in *.
  apply andb_true_iff in Ht as [-> Ht]. by apply IH.
Qed.

Lemma locate_game_Ok player_games i pgn gameID usernames :
  locate_game player_games i = Ok (pgn, gameID, usernames) →
  ∃ url,
    game_field player_games i ["url"] = Ok (PStr url) ∧
    re_search_digit_dotstar url = Some gameID.
Proof.
  unfold locate_game. intros H.
  apply rbind_Ok in H as (pgn' & _ & H).
  apply rbind_Ok in H as (urlv & Hurl & H).
  apply rbind_Ok in H as (m & Hm & H).
  apply rbind_Ok in H as (gid & Hgid & H).
  apply rbind_Ok in H as (us & _ & H).
  injection H as _ -> _.
  destruct urlv; try discriminate. cbn in Hm. injection Hm as <-.
  destruct (re_search_digit_dotstar s) as [t|] eqn:Hs; [|discriminate].
  injection Hgid as ->. eauto.
Qed.

(** C5 (as amended). When the lookup of a game succeeds, its identifier is
    the part of the record's URL that starts at the first decimal digit and
    runs to the end of the line. It is all digits and equals the trailing
    path segment whenever the URL is a digit-free text, a slash, and a
    non-empty run of digits (a URL ending in /live/12345678 with no earlier
    digit gives 12345678). *)
Theorem locate_game_identifier player_games i pgn gameID usernames :
  locate_game player_games i = Ok (pgn, gameID, usernames) →
  ∃ url pre c rest post,
    game_field player_games i ["url"] = Ok (PStr url) ∧
    url = pre +:+ gameID +:+ post ∧
    no_digit pre = true ∧
    gameID = String c rest ∧ is_digit c = true ∧ no_newline rest = true ∧
    (post = "" ∨ ∃ p, post = String newline p) ∧
    (∀ head ds,
       url = head +:+ "/" +:+ ds →
       no_digit head = true → all_digits ds = true → ds ≠ "" →
       gameID = ds ∧ gameID = trailing_segment url ∧
       all_digits gameID = true).
Proof.
  intros H. apply locate_game_Ok in H as (url & Hurl & Hm).
  destruct (re_search_split _ _ Hm) as (pre & c & rest & Hsplit & Hpre & Hc & ->).
  destruct (re_dot_star_split rest) as (post & Hrest & Hnl & Hpost).
  exists url, pre, c, (re_dot_star rest), post.
  split; [done|]. split.
  { rewrite Hsplit. rewrite app_cons. by rewrite <- Hrest. }
  do 5 (split; [done|]).
  intros head ds Hurl' Hhead Hds Hne.
  assert (re_search_digit_dotstar url = Some ds) as Hm'.
  { rewrite Hurl'. rewrite <- app_assoc_str.
    apply re_search_digits; [|done..].
    by apply no_digit_app. }
  rewrite Hm in Hm'. injection Hm' as Heq. rewrite Heq.
  split; [done|]. split; [|done].
  rewrite Hurl'. change ("/" +:+ ds) with (String "/" ds).
  symmetry. apply trailing_segment_app. by apply all_digits_no_slash.
Qed.

Lemma py_index_out_of_range l i :
  Z.of_nat (length l) ≤ i ∨ i < - Z.of_nat (length l) →
  py_index (PList l) i = Raise IndexError.
Proof.
  intros Hi. unfold py_index, seq_index.
  destruct (i <? 0) eqn:Hneg.
  - apply Z.ltb_lt in Hneg.
    destruct ((0 <=? i + Z.of_nat (length l)) &&
              (i + Z.of_nat (length l) <? Z.of_nat (length l))) eqn:Hin;
      [|done].
    apply andb_true_iff in Hin as [?%Z.leb_le ?%Z.ltb_lt]. lia.
  - apply Z.ltb_ge in Hneg.
    destruct ((0 <=? i) && (i <? Z.of_nat (length l))) eqn:Hin; [|done].
    apply andb_true_iff in Hin as [?%Z.leb_le ?%Z.ltb_lt]. lia.
Qed.

Lemma py_index_negative l i :
  - Z.of_nat (length l) ≤ i < 0 →
  py_index (PList l) i = py_index (PList l) (i + Z.of_nat (length l)).
Proof.
  intros Hi. unfold py_index, seq_index.
  replace (i <? 0) with true by (symmetry; apply Z.ltb_lt; lia).
  replace (i + Z.of_nat (length l) <? 0) with false
    by (symmetry; apply Z.ltb_ge; lia).
  reflexivity.
Qed.

Lemma locate_game_out_of_range l i :
  Z.of_nat (length l) ≤ i ∨ i < - Z.of_nat (length l) →
  locate_game (PList l) i = Raise IndexError.
Proof.
  intros Hi. unfold locate_game, game_field.
  by rewrite py_index_out_of_range.
Qed.

Lemma collect_usernames_negative l i colors : ∀ usernames,
  - Z.of_nat (length l) ≤ i < 0 →
  collect_usernames (PList l) i colors usernames =
  collect_usernames (PList l) (i + Z.of_nat (length l)) colors usernames.
Proof.
  induction colors as [|color rest IH]; intros usernames Hi; [done|].
  cbn [collect_usernames]. unfold game_field.
  rewrite py_index_negative by done.
  destruct (let* g := py_index (PList l) (i + Z.of_nat (length l)) in
            py_path g [color; "username"]); cbn [rbind]; [by apply IH|done..].
Qed.

Lemma locate_game_negative l i :
  - Z.of_nat (length l) ≤ i < 0 →
  locate_game (PList l) i = locate_game (PList l) (i + Z.of_nat (length l)).
Proof.
  intros Hi. unfold locate_game, game_field.
  rewrite py_index_negative by done.
  by rewrite collect_usernames_negative.
Qed.

(** *** Running computations on a world *)

Lemma bind_Ok {A B} (m : M A) (k : A → M B) w a w' :
  m w = (Ok a, w') → bind m k w = k a w'.
Proof. unfold bind. by intros ->. Qed.


Lemma get_player_games_by_month_run username year month w reply rest :
  api_replies w = inr reply :: rest →
  get_player_games_by_month username year month w =
  (Ok reply,
   set_api_replies rest
     (set_sent
        (sent w ++ [PlayerGames (client_user_agent w) username year month])
        w)).
Proof.
  intros Hw. unfold get_player_games_by_month, bind, log. cbn.
  by rewrite Hw.
Qed.

Lemma analyze_game_located loads dumps self username i year month fuel
    w reply rest player_games :
  api_replies w = inr reply :: rest →
  py_getitem reply "games" = Ok player_games →
  analyze_game loads dumps self username i year month fuel w =
  let w1 :=
    set_api_replies rest
      (set_sent
         (sent w ++
          [PlayerGames (client_user_agent w) username
             (default (fst (analyze_game_defaults self)) year)
             (default (snd (analyze_game_defaults self)) month)])
         w) in
  match locate_game player_games i with
  | Ok (pgn, gameID, usernames) =>
      bind (__analyze_game_async loads dumps self pgn gameID fuel)
           (λ game, lift (__get_tallies loads self game usernames)) w1
  | Raise e => (Raise e, w1)
  | Pending => (Pending, w1)
  end.
Proof.
  intros Hw Hgames. unfold analyze_game.
  rewrite (bind_Ok _ _ _ _ _
             (get_player_games_by_month_run _ _ _ _ _ _ Hw)).
  unfold bind at 1. unfold lift at 1. rewrite Hgames.
  unfold bind at 1. unfold lift at 1.
  destruct (locate_game player_games i) as [[[pgn gameID] usernames]| |];
    reflexivity.
Qed.

(** C6 (as amended). With [N] games in the month, an index [i] with [i >= N]
    or [i < -N] makes [analyze_game] raise [IndexError] (a [LookupError])
    right after the game-history request, before anything else is sent;
    an index from [-N] to [-1] is not refused: it counts from the end and
    the call behaves as with index [i + N]. *)
Theorem analyze_game_index_range loads dumps self username i year month fuel
    w reply rest games :
  api_replies w = inr reply :: rest →
  py_getitem reply "games" = Ok (PList games) →
  (Z.of_nat (length games) ≤ i ∨ i < - Z.of_nat (length games) →
   analyze_game loads dumps self username i year month fuel w =
   (Raise IndexError,
    set_api_replies rest
      (set_sent
         (sent w ++
          [PlayerGames (client_user_agent w) username
             (default (fst (analyze_game_defaults self)) year)
             (default (snd (analyze_game_defaults self)) month)])
         w))) ∧
  (- Z.of_nat (length games) ≤ i < 0 →
   analyze_game loads dumps self username i year month fuel w =
   analyze_game loads dumps self username (i + Z.of_nat (length games))
     year month fuel w).
Proof.
  intros Hw Hgames. split; intros Hi.
  - rewrite (analyze_game_located _ _ _ _ _ _ _ _ _ _ _ _ Hw Hgames).
    by rewrite locate_game_out_of_range.
  - rewrite !(analyze_game_located _ _ _ _ _ _ _ _ _ _ _ _ Hw Hgames).
    by rewrite locate_game_negative.
Qed.

(** *** Provisioning a credential *)

Lemma set_rng_pos_id w : set_rng_pos (rng_pos w) w = w.
Proof. by destruct w. Qed.

Lemma random_choices_run population k : ∀ w,
  ∃ s, random_choices population k w =
       (Ok s, set_rng_pos (rng_pos w + k) w).
Proof.
  induction k as [|k IH]; intros w.
  - exists "". cbn. by rewrite Nat.add_0_r, set_rng_pos_id.
  - cbn [random_choices]. unfold bind at 1. unfold randbelow at 1.
    destruct (IH (set_rng_pos (S (rng_pos w)) w)) as (s & Hs).
    unfold bind at 1. rewrite Hs. unfold ret.
    eexists. f_equal. cbn. unfold set_rng_pos. cbn. f_equal. lia.
Qed.

Lemma http_exchange_run ev w r rest :
  http_replies w = inr r :: rest →
  http_exchange ev w =
  (Ok r, set_http_replies rest (set_sent (sent w ++ [ev]) w)).
Proof.
  intros Hw. unfold http_exchange, bind, log. cbn. by rewrite Hw.
Qed.

(** C2 (as amended). When the registration reply echoes the submitted user
    name and both session cookies are there, [__generate_account] returns
    the "token" field of the token-exchange reply as it is, whatever its
    value (nothing checks that it is non-empty), after exactly three HTTP
    exchanges: session, registration, token. *)
Theorem generate_account_returns_token self w user w1 passwd w2
    r0 r1 r2 rest sid0 sid1 body name token :
  random_choices alphanumeric 15 w = (Ok user, w1) →
  random_choices alphanumeric 20 w1 = (Ok passwd, w2) →
  http_replies w = inr r0 :: inr r1 :: inr r2 :: rest →
  cookie r0 "PHPSESSID" = Ok sid0 →
  response_json r1 = Ok body →
  py_path body ["user"; "username"] = Ok name →
  py_contains user name = Ok true →
  cookie r1 "PHPSESSID" = Ok sid1 →
  (let* b := response_json r2 in py_getitem b "token") = Ok token →
  ∃ w',
    __generate_account self w = (Ok token, w') ∧
    http_replies w' = rest ∧
    sent w' =
    sent w ++
    [HttpGet (CHESSKID_URL +:+ "/register/user-type") [];
     HttpPost (CHESSKID_URL +:+ "/callback/register/account")
       [("PHPSESSID", sid0)]
       [("User-Agent", user_agents w (rng w (rng_pos w + 35)%nat))]
       (PDict [("avatarFilename", PStr "kid-1459.png");
               ("username", PStr user);
               ("userType", PStr "kid");
               ("password", PStr passwd);
               ("email", PStr (user +:+ "@gmail.com"))]);
     HttpGet (CHESSKID_URL +:+ "/callback/auth/service/analysis")
       [("PHPSESSID", sid1)]].
Proof.
  intros Huser Hpasswd Hw Hsid0 Hbody Hname Hfound Hsid1 Htoken.
  destruct (random_choices_run alphanumeric 15 w) as (u & Hu).
  rewrite Huser in Hu. injection Hu as <- ->.
  destruct (random_choices_run alphanumeric 20
              (set_rng_pos (rng_pos w + 15) w)) as (p & Hp).
  rewrite Hpasswd in Hp. injection Hp as <- ->.
  apply rbind_Ok in Htoken as (b & Hb & Htoken).
  unfold __generate_account.
  rewrite (bind_Ok _ _ _ _ _ Huser), (bind_Ok _ _ _ _ _ Hpasswd).
  unfold requests_get at 1.
  erewrite (bind_Ok (http_exchange _)); [|by apply http_exchange_run].
  unfold bind at 1. unfold lift at 1. rewrite Hsid0.
  unfold bind at 1. unfold user_agent_random at 1.
  unfold requests_post.
  erewrite (bind_Ok (http_exchange _)); [|by apply http_exchange_run].
  unfold bind at 1. unfold lift at 1. rewrite Hbody.
  unfold bind at 1. unfold lift at 1. rewrite Hname.
  unfold bind at 1. unfold lift at 1. rewrite Hfound. cbn [negb].
  unfold bind at 1. unfold lift at 1. rewrite Hsid1.
  unfold __fetch_token, requests_get.
  erewrite (bind_Ok (http_exchange _)); [|by apply http_exchange_run].
  unfold bind at 1. unfold lift at 1. rewrite Hb.
  unfold bind at 1. unfold lift at 1. rewrite Htoken.
  unfold ret. eexists. split; [reflexivity|]. split; [reflexivity|].
  cbn [sent set_http_replies set_sent set_rng_pos rng rng_pos user_agents].
  rewrite <- !app_assoc. cbn [app].
  by replace (rng_pos w + 15 + 20)%nat with (rng_pos w + 35)%nat by lia.
Qed.


(** *** Computations that do not depend on what was sent before *)

Lemma same_inputs_refl w : same_inputs w w.
Proof. reflexivity. Qed.

Lemma same_inputs_set_sent w w' l l' :
  same_inputs w w' → same_inputs (set_sent l w) (set_sent l' w').
Proof. unfold same_inputs. intros H. exact H. Qed.

Lemma hf_ret {A} (a : A) : history_free (ret a).
Proof.
  intros w w' H. cbn. split; [done|]. split; [done|].
  exists []. by rewrite !app_nil_r.
Qed.

Lemma hf_lift {A} (r : res A) : history_free (lift r).
Proof.
  intros w w' H. cbn. split; [done|]. split; [done|].
  exists []. by rewrite !app_nil_r.
Qed.

Lemma hf_bind {A B} (m : M A) (k : A → M B) :
  history_free m → (∀ a, history_free (k a)) → history_free (bind m k).
Proof.
  intros Hm Hk w w' Hww.
  destruct (Hm w w' Hww) as (Hr & Hs & new & Hn & Hn').
  unfold bind. destruct (m w) as [r w1], (m w') as [r' w1'].
  cbn in Hr, Hs, Hn, Hn'. subst r'. destruct r as [a|e|].
  - destruct (Hk a w1 w1' Hs) as (Hr2 & Hs2 & new2 & Hn2 & Hn2').
    split; [done|]. split; [done|]. exists (new ++ new2).
    rewrite Hn2, Hn2', Hn, Hn'. by rewrite !app_assoc.
  - cbn. eauto.
  - cbn. eauto.
Qed.

Lemma hf_log ev : history_free (log ev).
Proof.
  intros w w' H. cbn. split; [done|]. split; [exact H|]. by exists [ev].
Qed.

Lemma hf_randbelow n : history_free (randbelow n).
Proof.
  intros w w' H. unfold randbelow. cbn.
  pose proof (f_equal rng H) as Hrng. pose proof (f_equal rng_pos H) as Hpos.
  cbn in Hrng, Hpos. rewrite Hrng, Hpos. split; [done|]. split.
  - unfold same_inputs in *. cbn.
    change (set_rng_pos (S (rng_pos w')) (set_sent [] w) =
            set_rng_pos (S (rng_pos w')) (set_sent [] w')).
    by rewrite H.
  - exists []. by rewrite !app_nil_r.
Qed.

Lemma hf_random_choices population k : history_free (random_choices population k).
Proof.
  induction k as [|k IH]; cbn [random_choices]; [apply hf_ret|].
  apply hf_bind; [apply hf_randbelow|]. intros i.
  apply hf_bind; [apply IH|]. intros s. apply hf_ret.
Qed.

Lemma hf_user_agent_random : history_free user_agent_random.
Proof.
  intros w w' H. unfold user_agent_random. cbn.
  pose proof (f_equal rng H) as Hrng. pose proof (f_equal rng_pos H) as Hpos.
  pose proof (f_equal user_agents H) as Hua.
  cbn in Hrng, Hpos, Hua. rewrite Hrng, Hpos, Hua. split; [done|]. split.
  - unfold same_inputs in *.
    change (set_rng_pos (S (rng_pos w')) (set_sent [] w) =
            set_rng_pos (S (rng_pos w')) (set_sent [] w')).
    by rewrite H.
  - exists []. by rewrite !app_nil_r.
Qed.

Lemma hf_pop_http :
  history_free (λ w, match http_replies w with
                     | [] => (Raise (ExternalError "ConnectionError"), w)
                     | r :: l => (of_reply r, set_http_replies l w)
                     end).
Proof.
  intros w w' H. pose proof (f_equal http_replies H) as Hh. cbn in Hh.
  rewrite Hh. destruct (http_replies w') as [|r l]; cbn.
  - split; [done|]. split; [done|]. exists []. by rewrite !app_nil_r.
  - split; [done|]. split.
    + unfold same_inputs in *.
      change (set_http_replies l (set_sent [] w) =
              set_http_replies l (set_sent [] w')).
      by rewrite H.
    + exists []. by rewrite !app_nil_r.
Qed.

Lemma hf_http_exchange ev : history_free (http_exchange ev).
Proof.
  unfold http_exchange. apply hf_bind; [apply hf_log|]. intros _.
  apply hf_pop_http.
Qed.

Lemma hf_get_player_games_by_month username year month :
  history_free (get_player_games_by_month username year month).
Proof.
  intros w w' H. unfold get_player_games_by_month, bind, log. cbn.
  pose proof (f_equal api_replies H) as Ha.
  pose proof (f_equal client_user_agent H) as Hc. cbn in Ha, Hc.
  rewrite Ha, Hc. destruct (api_replies w') as [|r l]; cbn.
  - split; [done|]. split; [exact H|]. eauto.
  - split; [done|]. split; [|eauto].
    unfold same_inputs in *.
    change (set_api_replies l (set_sent [] w) =
            set_api_replies l (set_sent [] w')).
    by rewrite H.
Qed.

Lemma hf_websockets_connect url : history_free (websockets_connect url).
Proof.
  unfold websockets_connect. apply hf_bind; [apply hf_log|]. intros _.
  intros w w' H. pose proof (f_equal sockets H) as Hs. cbn in Hs.
  rewrite Hs. destruct (sockets w') as [|r l]; cbn.
  - split; [done|]. split; [done|]. exists []. by rewrite !app_nil_r.
  - split; [done|]. split.
    + unfold same_inputs in *.
      change (set_sockets l (set_sent [] w) = set_sockets l (set_sent [] w')).
      by rewrite H.
    + exists []. by rewrite !app_nil_r.
Qed.

Create HintDb history discriminated.
#[local] Hint Resolve hf_ret hf_lift hf_log hf_randbelow hf_random_choices
  hf_user_agent_random hf_http_exchange hf_get_player_games_by_month
  hf_websockets_connect : history.

Ltac history :=
  repeat first
    [ progress eauto with history
    | apply hf_bind; [|intros ?] ].

Lemma hf_fetch_token self sid : history_free (__fetch_token self sid).
Proof. unfold __fetch_token, requests_get. history. Qed.

Lemma hf_generate_account self : history_free (__generate_account self).
Proof.
  unfold __generate_account, requests_get, requests_post. history.
  match goal with |- history_free (if negb ?b then _ else _) => destruct b end;
    cbn [negb]; history.
Qed.

Lemma hf_get_game_number self username year month :
  history_free (get_game_number self username year month).
Proof. unfold get_game_number. history. Qed.

Lemma hf_analyze_game_async loads dumps self pgn gameID fuel :
  history_free (__analyze_game_async loads dumps self pgn gameID fuel).
Proof.
  unfold __analyze_game_async.
  apply hf_bind; [apply hf_generate_account|]. intros token. history.
  destruct (recv_loop loads fuel _) as [[game|e|] c]; history.
Qed.


(** *** Default year and month *)

Lemma ct_ret {A} (a : A) : clock_untouched (ret a).
Proof. by intros w. Qed.

Lemma ct_lift {A} (r : res A) : clock_untouched (lift r).
Proof. by intros w. Qed.

Lemma ct_bind {A B} (m : M A) (k : A → M B) :
  clock_untouched m → (∀ a, clock_untouched (k a)) →
  clock_untouched (bind m k).
Proof.
  intros Hm Hk w. unfold bind. specialize (Hm w).
  destruct (m w) as [[a|e|] w1]; cbn in *; [|done..].
  by rewrite Hk.
Qed.

Lemma ct_log ev : clock_untouched (log ev).
Proof. by intros w. Qed.

Lemma ct_randbelow n : clock_untouched (randbelow n).
Proof. by intros w. Qed.

Lemma ct_random_choices population k :
  clock_untouched (random_choices population k).
Proof.
  induction k as [|k IH]; cbn [random_choices]; [apply ct_ret|].
  apply ct_bind; [apply ct_randbelow|]. intros i.
  apply ct_bind; [apply IH|]. intros s. apply ct_ret.
Qed.

Lemma ct_user_agent_random : clock_untouched user_agent_random.
Proof. by intros w. Qed.

Lemma ct_http_exchange ev : clock_untouched (http_exchange ev).
Proof.
  unfold http_exchange. apply ct_bind; [apply ct_log|]. intros _ w.
  by destruct (http_replies w).
Qed.

Lemma ct_get_player_games_by_month username year month :
  clock_untouched (get_player_games_by_month username year month).
Proof.
  intros w. unfold get_player_games_by_month, bind, log. cbn.
  by destruct (api_replies w).
Qed.

Lemma ct_websockets_connect url : clock_untouched (websockets_connect url).
Proof.
  unfold websockets_connect. apply ct_bind; [apply ct_log|]. intros _ w.
  by destruct (sockets w).
Qed.

Create HintDb clock discriminated.
#[local] Hint Resolve ct_ret ct_lift ct_log ct_randbelow ct_random_choices
  ct_user_agent_random ct_http_exchange ct_get_player_games_by_month
  ct_websockets_connect : clock.

Ltac clock :=
  repeat first
    [ progress eauto with clock
    | apply ct_bind; [|intros ?] ].

Lemma ct_generate_account self : clock_untouched (__generate_account self).
Proof.
  unfold __generate_account, requests_get, requests_post. clock.
  match goal with |- clock_untouched (if negb ?b then _ else _) => destruct b end;
    cbn [negb]; clock.
Qed.

Lemma ct_get_game_number self username year month :
  clock_untouched (get_game_number self username year month).
Proof. unfold get_game_number. clock. Qed.

Lemma ct_analyze_game loads dumps self username i year month fuel :
  clock_untouched (analyze_game loads dumps self username i year month fuel).
Proof.
  unfold analyze_game. clock.
  match goal with a : _ * _ * _ |- _ => destruct a as [[pgn gameID] us] end.
  apply ct_bind; [|intros game; clock].
  unfold __analyze_game_async.
  apply ct_bind; [apply ct_generate_account|]. intros token. clock.
  destruct (recv_loop loads fuel _) as [[game|e|] c]; clock.
Qed.

Lemma get_player_games_by_month_sent username year month w :
  sent (snd (get_player_games_by_month username year month w)) =
  sent w ++ [PlayerGames (client_user_agent w) username year month].
Proof.
  unfold get_player_games_by_month, bind, log. cbn.
  by destruct (api_replies w).
Qed.

Lemma bind_sent_first {A B} (m : M A) (k : A → M B) w ev :
  (∀ a, history_free (k a)) →
  sent (snd (m w)) = sent w ++ [ev] →
  ∃ more, sent (snd (bind m k w)) = sent w ++ ev :: more.
Proof.
  intros Hk Hm. unfold bind. destruct (m w) as [[a|e|] w1]; cbn in Hm.
  - destruct (Hk a w1 w1 (same_inputs_refl w1)) as (_ & _ & new & Hn & _).
    exists new. rewrite Hn, Hm. by rewrite <- app_assoc.
  - exists []. done.
  - exists []. done.
Qed.

(** C10. The class statement reads the clock four times and keeps the
    results as the default (year, month) of [get_game_number] and of
    [analyze_game]. A later call that leaves year and month out, in any
    world and whatever its clock shows by then, asks the game-history
    service for that stored year and month, and does not read the clock. *)
Theorem defaults_fixed_by_class_statement w0 :
  ∃ cls w0',
    class_statement w0 = (Ok cls, w0') ∧
    ∀ username w,
      (∃ more,
         sent (snd (get_game_number cls username None None w)) =
         sent w ++
         PlayerGames (client_user_agent w) username
           (int_repr (dt_year (clock w0 (clock_pos w0))))
           (int_repr (dt_month (clock w0 (1 + clock_pos w0)%nat))) :: more) ∧
      clock_pos (snd (get_game_number cls username None None w)) =
      clock_pos w ∧
      ∀ loads dumps i fuel,
        (∃ more,
           sent (snd (analyze_game loads dumps cls username i None None
                        fuel w)) =
           sent w ++
           PlayerGames (client_user_agent w) username
             (int_repr (dt_year (clock w0 (2 + clock_pos w0)%nat)))
             (int_repr (dt_month (clock w0 (3 + clock_pos w0)%nat)))
           :: more) ∧
        clock_pos (snd (analyze_game loads dumps cls username i None None
                          fuel w)) =
        clock_pos w.
Proof.
  eexists _, _. split; [reflexivity|].
  intros username w. split; [|split].
  - unfold get_game_number. cbn [get_game_number_defaults fst snd default].
    apply bind_sent_first; [|apply get_player_games_by_month_sent].
    intros reply. history.
  - apply ct_get_game_number.
  - intros loads dumps i fuel. split; [|apply ct_analyze_game].
    unfold analyze_game. cbn [analyze_game_defaults fst snd default].
    apply bind_sent_first; [|apply get_player_games_by_month_sent].
    intros reply. history.
    match goal with a : _ * _ * _ |- _ => destruct a as [[pgn gameID] us] end.
    apply hf_bind; [apply hf_analyze_game_async|]. intros game. history.
Qed.

(** *** The properties at the sample data *)

(** Five progress frames, then the analysis: the loop returns the sixth
    frame. *)
Lemma recv_loop_first_completion_witness :
  recv_loop sample_loads 10 {| inbound := sample_inbound; cursor := 0 |} =
  (Ok "analysis frame", {| inbound := sample_inbound; cursor := 6 |}).
Proof.
  refine (proj1 (recv_loop_first_completion sample_loads sample_inbound 5
                   "analysis frame" _ _ _) 10%nat _).
  - intros i Hi.
    do 5 (destruct i as [|i];
          [exists "progress frame", (PStr "progress");
           split; [reflexivity|];
           split; [exists (PDict [("action", PStr "progress")]);
                   split; reflexivity
                  |discriminate]
          |]).
    lia.
  - reflexivity.
  - exists sample_payload. split; reflexivity.
  - lia.
Defined.

(** The sample month has two games: keys 0 and 1, nothing under 2. *)
Lemma get_game_number_indexes_witness :
  ∃ user_games,
    fst (get_game_number sample_class "alice" None None sample_world) =
    Ok user_games ∧
    0%nat ∈ dom user_games ∧ 1%nat ∈ dom user_games ∧
    (2%nat ∉ dom user_games) ∧
    user_games !! 1%nat =
    Some (PDict [("white", PStr "carol"); ("black", PStr "alice")]).
Proof.
  destruct (get_game_number_indexes sample_class "alice" None None
              sample_world (PDict [("games", PList sample_games)]) []
              sample_games eq_refl eq_refl) as [Hex Hall].
  destruct Hex as [user_games Hrun].
  { intros g Hg.
    repeat (apply elem_of_cons in Hg as [->|Hg];
            [eexists _, _; split; reflexivity|]).
    by apply elem_of_nil in Hg. }
  exists user_games. split; [exact Hrun|].
  destruct (Hall user_games Hrun) as [Hdom Hentry].
  split; [apply Hdom; cbn; lia|].
  split; [apply Hdom; cbn; lia|].
  split; [rewrite Hdom; cbn; lia|].
  destruct (Hentry 1%nat _ eq_refl) as (wh & bl & Hwh & Hbl & Hl).
  vm_compute in Hwh, Hbl. injection Hwh as <-. injection Hbl as <-.
  exact Hl.
Defined.

(** The sample payload gives a tally with the ten labels; without the
    label "miss" for white the call raises. *)
Lemma get_tallies_labels_total_witness :
  (∃ r ratings,
     __get_tallies sample_loads sample_class "analysis frame"
       sample_usernames = Ok r ∧
     py_path r ["white"; "move_rating"] = Ok (PDict ratings) ∧
     List.map fst ratings = TALLIES_LIST) ∧
  (∃ e, __get_tallies sample_loads sample_class
          "analysis frame without miss" sample_usernames = Raise e).
Proof.
  split.
  - destruct (__get_tallies sample_loads sample_class "analysis frame"
                sample_usernames) as [r|e|] eqn:Hrun;
      [|vm_compute in Hrun; discriminate..].
    destruct (proj1 (get_tallies_labels_total sample_loads sample_class
                       "analysis frame" sample_usernames sample_payload
                       eq_refl) r Hrun "white")
      as (ratings & Hr & Hkeys & _); [by left|].
    by exists r, ratings.
  - refine (proj2 (proj2 (get_tallies_labels_total sample_loads sample_class
                     "analysis frame without miss" sample_usernames
                     sample_payload_no_miss eq_refl) "white" _ _ _ _)).
    + by left.
    + vm_compute. reflexivity.
    + exists "miss". split; [|reflexivity].
      unfold TALLIES_LIST. do 8 right. by left.
Defined.

(** White's overall accuracy 97.456 is reported as "97.4". *)
Lemma get_tallies_accuracy_truncated_witness :
  ∃ r,
    __get_tallies sample_loads sample_class "analysis frame"
      sample_usernames = Ok r ∧
    py_path r ["white"; "accuracy"] = Ok (PStr "97.4").
Proof.
  destruct (__get_tallies sample_loads sample_class "analysis frame"
              sample_usernames) as [r|e|] eqn:Hrun;
    [|vm_compute in Hrun; discriminate..].
  exists r. split; [reflexivity|].
  destruct (proj1 (get_tallies_accuracy_truncated sample_loads sample_class
                     "analysis frame" sample_usernames sample_payload r
                     eq_refl Hrun) "white" "accuracy" "all")
    as (v & t & Hv & Ht & -> & _); [by left|by left|].
  vm_compute in Hv. injection Hv as <-. exact Ht.
Defined.

(** "Italian Game, Giuoco Piano" is reported as "Italian Game". *)
Lemma get_tallies_opening_first_segment_witness :
  ∃ r,
    __get_tallies sample_loads sample_class "analysis frame"
      sample_usernames = Ok r ∧
    py_path r ["opening"] = Ok (PStr "Italian Game").
Proof.
  destruct (__get_tallies sample_loads sample_class "analysis frame"
              sample_usernames) as [r|e|] eqn:Hrun;
    [|vm_compute in Hrun; discriminate..].
  exists r. split; [reflexivity|].
  destruct (get_tallies_opening_first_segment sample_loads sample_class
              "analysis frame" sample_usernames sample_payload r
              eq_refl Hrun)
    as (name & opening & Hname & Hop & _ & _ & Hex).
  vm_compute in Hname. injection Hname as <-.
  by rewrite <- (Hex eq_refl).
Defined.

(** A URL without a digit before its last segment. *)
Lemma locate_game_identifier_witness :
  ∃ pgn gameID usernames,
    locate_game (PList sample_games) 0 = Ok (pgn, gameID, usernames) ∧
    gameID = "12345678" ∧ all_digits gameID = true ∧
    gameID = trailing_segment "https://www.chess.com/game/live/12345678".
Proof.
  destruct (locate_game (PList sample_games) 0)
    as [[[pgn gameID] usernames]|e|] eqn:Hrun;
    [|vm_compute in Hrun; discriminate..].
  exists pgn, gameID, usernames. split; [reflexivity|].
  destruct (locate_game_identifier _ _ _ _ _ Hrun)
    as (url & pre & c & rest & post & Hurl & _ & _ & _ & _ & _ & _ & Hform).
  vm_compute in Hurl. injection Hurl as <-.
  destruct (Hform "https://www.chess.com/game/live" "12345678")
    as (Hid & Hseg & Hdigits); [reflexivity..|discriminate|].
  by split; [|split].
Defined.

(** C5, counterexample. The URL ends in /live/12345678 and has a digit
    earlier ("v2"): the identifier starts at that digit, is not made of
    digits only and is not the trailing segment. *)
Lemma locate_game_identifier_counterexample :
  ∃ pgn gameID usernames,
    locate_game versioned_games 0 = Ok (pgn, gameID, usernames) ∧
    game_field versioned_games 0 ["url"] = Ok (PStr versioned_url) ∧
    trailing_segment versioned_url = "12345678" ∧
    gameID = "2/game/live/12345678" ∧
    ¬ (all_digits gameID = true ∧ gameID = trailing_segment versioned_url).
Proof.
  eexists _, _, _. split; [vm_compute; reflexivity|].
  split; [reflexivity|]. split; [reflexivity|]. split; [reflexivity|].
  intros [Hd _]. vm_compute in Hd. discriminate.
Qed.

(** With two games, index 2 raises and index -1 is index 1. *)
Lemma analyze_game_index_range_witness :
  fst (analyze_game sample_loads sample_dumps sample_class "alice" 2
         None None 10 sample_world) = Raise IndexError ∧
  analyze_game sample_loads sample_dumps sample_class "alice" (-1)
    None None 10 sample_world =
  analyze_game sample_loads sample_dumps sample_class "alice" 1
    None None 10 sample_world.
Proof.
  destruct (analyze_game_index_range sample_loads sample_dumps sample_class
              "alice" 2 None None 10 sample_world
              (PDict [("games", PList sample_games)]) [] sample_games
              eq_refl eq_refl) as [Hout _].
  destruct (analyze_game_index_range sample_loads sample_dumps sample_class
              "alice" (-1) None None 10 sample_world
              (PDict [("games", PList sample_games)]) [] sample_games
              eq_refl eq_refl) as [_ Hneg].
  split.
  - rewrite Hout; [reflexivity|]. left. cbn. lia.
  - apply Hneg. cbn. lia.
Defined.

(** C6, counterexample. The month has two games, listed under the indices
    0 and 1. The index -1 is not refused: [analyze_game] returns the summary
    of the last game (white: carol). *)
Lemma analyze_game_index_counterexample :
  length sample_games = 2%nat ∧
  ∃ summary,
    fst (analyze_game sample_loads sample_dumps sample_class "alice" (-1)
           None None 10 sample_world) = Ok summary ∧
    py_path summary ["white"; "username"] = Ok (PStr "carol").
Proof.
  split; [reflexivity|].
  eexists. split; [vm_compute; reflexivity|]. reflexivity.
Qed.

(** The token-exchange reply carries the empty string: it is returned. *)
Lemma generate_account_returns_token_witness :
  ∃ w', __generate_account sample_class empty_token_world =
        (Ok (PStr ""), w') ∧
        http_replies w' = [].
Proof.
  destruct (random_choices alphanumeric 15 empty_token_world)
    as [r1 w1] eqn:H1.
  destruct (random_choices alphanumeric 20 w1) as [r2 w2] eqn:H2.
  pose proof H1 as H1'. vm_compute in H1'. injection H1' as <- <-.
  pose proof H2 as H2'. vm_compute in H2'. injection H2' as <- <-.
  destruct (generate_account_returns_token sample_class empty_token_world
              _ _ _ _ _ _ _ [] "anon-session" "kid-session"
              (PDict [("user", PDict [("username", PStr "ABCDEFGHIJKLMNO")])])
              (PStr "ABCDEFGHIJKLMNO") (PStr "")
              H1 H2 eq_refl eq_refl eq_refl eq_refl eq_refl eq_refl eq_refl)
    as (w' & Hrun & Hrest & _).
  exists w'. split; [exact Hrun|exact Hrest].
Defined.

(** C2, counterexample. With a token-exchange reply whose token is the empty
    string the call succeeds with the empty token; with a registration reply
    that echoes another user name the call does not fail: it returns the
    text "ERROR GENERATING ACCOUNT." where a token is expected. *)
Lemma generate_account_counterexample :
  ¬ (∀ token w',
       __generate_account sample_class empty_token_world = (Ok token, w') →
       token ≠ PStr "") ∧
  py_contains "ABCDEFGHIJKLMNO" (PStr "somebody-else") = Ok false ∧
  fst (__generate_account sample_class echo_mismatch_world) =
  Ok (PStr "ERROR GENERATING ACCOUNT.") ∧
  ¬ (∃ e, fst (__generate_account sample_class echo_mismatch_world) =
          Raise e).
Proof.
  split; [|split; [|split]].
  - intros H.
    destruct (__generate_account sample_class empty_token_world)
      as [r w'] eqn:Hrun.
    pose proof Hrun as Hrun'. vm_compute in Hrun'.
    injection Hrun' as <- _. by apply (H (PStr "") w').
  - reflexivity.
  - vm_compute. reflexivity.
  - intros [e He]. vm_compute in He. discriminate.
Qed.

(** The class statement runs in March; a call made when the clock shows
    April, with year and month left out, still asks for March. *)
Lemma defaults_fixed_by_class_statement_witness :
  ∃ cls w0',
    class_statement sample_world = (Ok cls, w0') ∧
    dt_month (clock later_world (clock_pos later_world)) = 4 ∧
    ∃ more,
      sent (snd (get_game_number cls "alice" None None later_world)) =
      PlayerGames "" "alice" "2024" "3" :: more.
Proof.
  destruct (defaults_fixed_by_class_statement sample_world)
    as (cls & w0' & Hcls & Hcalls).
  exists cls, w0'. split; [exact Hcls|]. split; [reflexivity|].
  destruct (Hcalls "alice" later_world) as [[more Hmore] _].
  exists more. exact Hmore.
Defined.

(** *** The sample run *)

(** The whole of [analyze_game] on the sample world: what it sends, in
    order, and the summary it returns. *)
Example analyze_game_sample_traffic :
  sent (snd (analyze_game sample_loads sample_dumps sample_class "alice" 0
               None None 10 sample_world)) =
  [PlayerGames "" "alice" "2024" "3";
   HttpGet "https://www.chesskid.com/register/user-type" [];
   HttpPost "https://www.chesskid.com/callback/register/account"
     [("PHPSESSID", "anon-session")] [("User-Agent", "Mozilla/5.0")]
     (PDict [("avatarFilename", PStr "kid-1459.png");
             ("username", PStr "ABCDEFGHIJKLMNO");
             ("userType", PStr "kid");
             ("password", PStr "PQRSTUVWXYZabcdefghi");
             ("email", PStr "ABCDEFGHIJKLMNO@gmail.com")]);
   HttpGet "https://www.chesskid.com/callback/auth/service/analysis"
     [("PHPSESSID", "kid-session")];
   WsConnect "wss://analysis-va.chess.com/";
   WsSend (sample_dumps
             (analysis_request (PStr "1. e4 e5 2. Nf3 Nc6 3. Bc4 Bc5")
                "12345678" (PStr "token-1")));
   WsClose].
Proof. vm_compute. reflexivity. Qed.

Example analyze_game_sample_summary :
  ∃ white black,
    fst (analyze_game sample_loads sample_dumps sample_class "alice" 0
           None None 10 sample_world) =
    Ok (PDict [("opening", PStr "Italian Game");
               ("engine", PStr "StockFish 16 NNUE (Maximum)");
               ("white", white); ("black", black)]) ∧
    white =
    PDict [("username", PStr "alice"); ("effective_elo", PInt 1850);
           ("accuracy", PStr "97.4"); ("open_acc", PStr "100");
           ("midd_acc", PStr "95.5"); ("end_acc", PStr "89.1");
           ("move_rating", sample_tally)].
Proof. eexists _, _. split; vm_compute; reflexivity. Qed.

(** While the analysis has not arrived the call is still waiting and the
    connection is still open. *)
Example analyze_game_sample_waiting :
  fst (analyze_game sample_loads sample_dumps sample_class "alice" 0
         None None 5 sample_world) = Pending ∧
  last (sent (snd (analyze_game sample_loads sample_dumps sample_class
                     "alice" 0 None None 5 sample_world))) ≠ Some WsClose.
Proof. split; [vm_compute; reflexivity|]. vm_compute. discriminate. Qed.

(** ** Further properties of the methods *)

(** *** Inverting successful computations *)

Lemma bind_inv_Ok {A B} (m : M A) (k : A → M B) w b w' :
  bind m k w = (Ok b, w') →
  ∃ a w1, m w = (Ok a, w1) ∧ k a w1 = (Ok b, w').
Proof.
  unfold bind. destruct (m w) as [[a|e|] w1]; intros H;
    [eauto|discriminate..].
Qed.

Lemma lift_inv_Ok {A} (r : res A) w a w' :
  lift r w = (Ok a, w') → r = Ok a ∧ w' = w.
Proof. unfold lift. intros H. by injection H as -> ->. Qed.

Lemma http_exchange_inv_Ok ev w r w1 :
  http_exchange ev w = (Ok r, w1) →
  ∃ rest, http_replies w = inr r :: rest ∧
          w1 = set_http_replies rest (set_sent (sent w ++ [ev]) w).
Proof.
  unfold http_exchange, bind, log. cbn.
  destruct (http_replies w) as [|[e|r'] rest]; cbn; intros H;
    [discriminate..|].
  injection H as -> <-. eauto.
Qed.

Lemma http_exchange_step ev w r rest :
  http_replies w = r :: rest →
  http_exchange ev w =
  (of_reply r, set_http_replies rest (set_sent (sent w ++ [ev]) w)).
Proof.
  intros Hw. unfold http_exchange, bind, log. cbn. by rewrite Hw.
Qed.

(** *** The random user name and password *)

Lemma str_nth_lt s : ∀ i, (i < String.length s)%nat → ∃ c, str_nth i s = Some c.
Proof.
  induction s as [|a s IH]; intros i Hi.
  - cbn in Hi. lia.
  - destruct i as [|i]; cbn; [eauto|]. apply IH. cbn in Hi. lia.
Qed.

Lemma str_nth_mem s : ∀ i c, str_nth i s = Some c → str_mem c s = true.
Proof.
  induction s as [|a s IH]; intros i c H; [by destruct i|].
  destruct i as [|i]; cbn in H.
  - injection H as ->. cbn. by rewrite decide_True.
  - cbn. destruct (decide (c = a)); [done|]. by apply (IH i).
Qed.

(** X1. Drawing [k] characters from a non-empty population gives a text of
    exactly [k] characters, each of them a character of the population, and
    uses up exactly [k] draws of the random source and nothing else of the
    world: the user name of a registration has 15 and the password 20
    letters or digits. *)
Theorem random_choices_length_alphabet population k w :
  population ≠ "" →
  ∃ s,
    random_choices population k w = (Ok s, set_rng_pos (rng_pos w + k) w) ∧
    String.length s = k ∧
    ∀ c, str_mem c s = true → str_mem c population = true.
Proof.
  intros Hne. revert w. induction k as [|k IH]; intros w.
  - exists "". cbn. rewrite Nat.add_0_r, set_rng_pos_id. done.
  - cbn [random_choices]. unfold bind at 1. unfold randbelow at 1.
    destruct (IH (set_rng_pos (S (rng_pos w)) w)) as (s & Hs & Hlen & Hmem).
    unfold bind at 1. rewrite Hs. unfold ret.
    destruct (str_nth_lt population
                (rng w (rng_pos w) mod String.length population)%nat)
      as (c & Hc).
    { apply Nat.mod_upper_bound. destruct population; [done|]. cbn. lia. }
    rewrite Hc. exists (String c s). split; [|split].
    + f_equal. unfold set_rng_pos. cbn. f_equal. lia.
    + cbn. by rewrite Hlen.
    + intros c' Hc'. cbn in Hc'.
      destruct (decide (c' = c)) as [->|]; [|by apply Hmem].
      by apply str_nth_mem in Hc.
Qed.

Lemma random_choices_length_alphabet_witness :
  ∃ s,
    fst (random_choices alphanumeric 15 sample_world) = Ok s ∧
    String.length s = 15%nat.
Proof.
  destruct (random_choices_length_alphabet alphanumeric 15 sample_world)
    as (s & Hs & Hlen & _); [discriminate|].
  exists s. split; [by rewrite Hs|exact Hlen].
Defined.

(** *** What a computation leaves alone *)

Lemma keeps_ret {A B} (f : world → B) (a : A) : keeps f (ret a).
Proof. by intros w. Qed.

Lemma keeps_lift {A B} (f : world → B) (r : res A) : keeps f (lift r).
Proof. by intros w. Qed.

Lemma keeps_bind {A A' B} (f : world → B) (m : M A) (k : A → M A') :
  keeps f m → (∀ a, keeps f (k a)) → keeps f (bind m k).
Proof.
  intros Hm Hk w. unfold bind. specialize (Hm w).
  destruct (m w) as [[a|e|] w1]; cbn in *; [|done..].
  by rewrite Hk.
Qed.

Section KeptByProvisioning.

(** [f] reads nothing that logging, drawing random numbers or an HTTP
    exchange writes. *)
Context {B : Type} (f : world → B).
Hypothesis f_sent : ∀ l w, f (set_sent l w) = f w.
Hypothesis f_rng_pos : ∀ n w, f (set_rng_pos n w) = f w.
Hypothesis f_http : ∀ l w, f (set_http_replies l w) = f w.

Lemma keeps_log ev : keeps f (log ev).
Proof. intros w. apply f_sent. Qed.

Lemma keeps_randbelow n : keeps f (randbelow n).
Proof. intros w. apply f_rng_pos. Qed.

Lemma keeps_random_choices population k :
  keeps f (random_choices population k).
Proof.
  induction k as [|k IH]; cbn [random_choices]; [apply keeps_ret|].
  apply keeps_bind; [apply keeps_randbelow|]. intros i.
  apply keeps_bind; [apply IH|]. intros s. apply keeps_ret.
Qed.

Lemma keeps_user_agent_random : keeps f user_agent_random.
Proof. intros w. apply f_rng_pos. Qed.

Lemma keeps_http_exchange ev : keeps f (http_exchange ev).
Proof.
  unfold http_exchange. apply keeps_bind; [apply keeps_log|]. intros _ w.
  destruct (http_replies w); cbn; [done|apply f_http].
Qed.

Lemma keeps_fetch_token self sid : keeps f (__fetch_token self sid).
Proof.
  unfold __fetch_token, requests_get.
  apply keeps_bind; [apply keeps_http_exchange|]. intros r.
  apply keeps_bind; [apply keeps_lift|]. intros body.
  apply keeps_bind; [apply keeps_lift|]. intros token. apply keeps_ret.
Qed.

Lemma keeps_generate_account self : keeps f (__generate_account self).
Proof.
  unfold __generate_account, requests_get, requests_post.
  apply keeps_bind; [apply keeps_random_choices|]. intros user.
  apply keeps_bind; [apply keeps_random_choices|]. intros passwd.
  apply keeps_bind; [apply keeps_http_exchange|]. intros r0.
  apply keeps_bind; [apply keeps_lift|]. intros sid0.
  apply keeps_bind; [apply keeps_user_agent_random|]. intros agent.
  apply keeps_bind; [apply keeps_http_exchange|]. intros response.
  apply keeps_bind; [apply keeps_lift|]. intros body.
  apply keeps_bind; [apply keeps_lift|]. intros name.
  apply keeps_bind; [apply keeps_lift|]. intros [|]; cbn [negb].
  - apply keeps_bind; [apply keeps_lift|]. intros sid.
    apply keeps_fetch_token.
  - apply keeps_ret.
Qed.

(** [f] reads nothing either that a game-history request or a web-socket
    connection writes. *)
Hypothesis f_api : ∀ l w, f (set_api_replies l w) = f w.
Hypothesis f_sockets : ∀ l w, f (set_sockets l w) = f w.

Lemma keeps_get_player_games_by_month username year month :
  keeps f (get_player_games_by_month username year month).
Proof.
  intros w. unfold get_player_games_by_month, bind, log. cbn.
  destruct (api_replies w); cbn; [apply f_sent|].
  by rewrite f_api, f_sent.
Qed.

Lemma keeps_websockets_connect url : keeps f (websockets_connect url).
Proof.
  unfold websockets_connect. apply keeps_bind; [apply keeps_log|].
  intros _ w. destruct (sockets w); cbn; [done|apply f_sockets].
Qed.

Lemma keeps_get_game_number self username year month :
  keeps f (get_game_number self username year month).
Proof.
  unfold get_game_number.
  apply keeps_bind; [apply keeps_get_player_games_by_month|]. intros reply.
  apply keeps_bind; [apply keeps_lift|]. intros player_games.
  apply keeps_bind; [apply keeps_lift|]. intros items. apply keeps_lift.
Qed.

Lemma keeps_analyze_game_async loads dumps self pgn gameID fuel :
  keeps f (__analyze_game_async loads dumps self pgn gameID fuel).
Proof.
  unfold __analyze_game_async.
  apply keeps_bind; [apply keeps_generate_account|]. intros token.
  apply keeps_bind; [apply keeps_websockets_connect|]. intros websocket.
  apply keeps_bind; [apply keeps_log|]. intros _.
  destruct (recv_loop loads fuel websocket) as [[game|e|] c];
    try apply keeps_lift;
    (apply keeps_bind; [apply keeps_log|intros _; apply keeps_lift]).
Qed.

Lemma keeps_analyze_game loads dumps self username i year month fuel :
  keeps f (analyze_game loads dumps self username i year month fuel).
Proof.
  unfold analyze_game.
  apply keeps_bind; [apply keeps_get_player_games_by_month|]. intros reply.
  apply keeps_bind; [apply keeps_lift|]. intros player_games.
  apply keeps_bind; [apply keeps_lift|]. intros [[pgn gameID] usernames].
  apply keeps_bind; [apply keeps_analyze_game_async|]. intros game.
  apply keeps_lift.
Qed.

End KeptByProvisioning.

(** *** Provisioning, step by step *)

Lemma random_choices_run_length population k w :
  population ≠ "" →
  ∃ s,
    random_choices population k w = (Ok s, set_rng_pos (rng_pos w + k) w) ∧
    String.length s = k.
Proof.
  intros Hne. revert w. induction k as [|k IH]; intros w.
  - exists "". cbn. rewrite Nat.add_0_r, set_rng_pos_id. done.
  - cbn [random_choices]. unfold bind at 1. unfold randbelow at 1.
    destruct (IH (set_rng_pos (S (rng_pos w)) w)) as (s & Hs & Hlen).
    unfold bind at 1. rewrite Hs. unfold ret.
    destruct (str_nth_lt population
                (rng w (rng_pos w) mod String.length population)%nat)
      as (c & Hc).
    { apply Nat.mod_upper_bound. destruct population; [done|]. cbn. lia. }
    rewrite Hc. exists (String c s). split.
    + f_equal. unfold set_rng_pos. cbn. f_equal. lia.
    + cbn. by rewrite Hlen.
Qed.

Lemma generate_account_first_exchange self w :
  ∃ user passwd,
    String.length user = 15%nat ∧ String.length passwd = 20%nat ∧
    __generate_account self w =
    bind (requests_get (CHESSKID_URL +:+ "/register/user-type") [])
      (λ r0,
         let! PHPSESSID := lift (cookie r0 "PHPSESSID") in
         let json_data :=
           PDict [("avatarFilename", PStr "kid-1459.png");
                  ("username", PStr user);
                  ("userType", PStr "kid");
                  ("password", PStr passwd);
                  ("email", PStr (user +:+ "@gmail.com"))] in
         let! agent := user_agent_random in
         let! response :=
           requests_post (CHESSKID_URL +:+ "/callback/register/account")
             [("PHPSESSID", PHPSESSID)] [("User-Agent", agent)] json_data in
         let! body := lift (response_json response) in
         let! name := lift (py_path body ["user"; "username"]) in
         let! found := lift (py_contains user name) in
         if negb found then ret (PStr "ERROR GENERATING ACCOUNT.")
         else
           let! sid := lift (cookie response "PHPSESSID") in
           __fetch_token self sid)
      (set_rng_pos (rng_pos w + 35) w).
Proof.
  destruct (random_choices_run_length alphanumeric 15 w)
    as (user & Hu & Hlu); [discriminate|].
  destruct (random_choices_run_length alphanumeric 20
              (set_rng_pos (rng_pos w + 15) w))
    as (passwd & Hp & Hlp); [discriminate|].
  exists user, passwd. split; [done|]. split; [done|].
  unfold __generate_account.
  rewrite (bind_Ok _ _ _ _ _ Hu), (bind_Ok _ _ _ _ _ Hp).
  cbn [rng_pos set_rng_pos].
  replace (rng_pos w + 15 + 20)%nat with (rng_pos w + 35)%nat by lia.
  reflexivity.
Qed.

(** X2. The registration request is sent only once a session cookie is in
    hand: when the first exchange fails, or its reply carries no PHPSESSID
    cookie, [__generate_account] raises that failure having sent the session
    request and nothing else. *)
Theorem generate_account_stops_without_session self w r rest e :
  http_replies w = r :: rest →
  (let* r0 := of_reply r in cookie r0 "PHPSESSID") = Raise e →
  fst (__generate_account self w) = Raise e ∧
  sent (snd (__generate_account self w)) =
  sent w ++ [HttpGet (CHESSKID_URL +:+ "/register/user-type") []] ∧
  http_replies (snd (__generate_account self w)) = rest.
Proof.
  intros Hw Hfail.
  assert (__generate_account self w =
          (Raise e,
           set_http_replies rest
             (set_sent
                (sent w ++
                 [HttpGet (CHESSKID_URL +:+ "/register/user-type") []])
                (set_rng_pos (rng_pos w + 35) w)))) as ->; [|done].
  destruct (generate_account_first_exchange self w)
    as (user & passwd & _ & _ & ->).
  unfold requests_get. unfold bind at 1.
  rewrite (http_exchange_step _ _ r rest) by exact Hw.
  destruct r as [e'|r0]; cbn [of_reply rbind] in Hfail |- *.
  - by injection Hfail as ->.
  - unfold bind at 1. unfold lift at 1. by rewrite Hfail.
Qed.

Lemma generate_account_stops_without_session_witness :
  fst (__generate_account sample_class no_cookie_world) =
  Raise (KeyError (PStr "PHPSESSID")) ∧
  length (sent (snd (__generate_account sample_class no_cookie_world))) =
  1%nat.
Proof.
  destruct (generate_account_stops_without_session sample_class
              no_cookie_world
              (inr {| cookies := []; json := None |})
              [inr {| cookies := []; json := None |}]
              (KeyError (PStr "PHPSESSID")) eq_refl eq_refl)
    as (Hr & Hs & _).
  split; [exact Hr|]. by rewrite Hs.
Defined.

(** *** The connection of a call *)

Lemma analyze_async_connected loads dumps self pgn gameID fuel
    w token w1 inbound rest :
  __generate_account self w = (Ok token, w1) →
  sockets w1 = inr inbound :: rest →
  __analyze_game_async loads dumps self pgn gameID fuel w =
  let w2 :=
    set_sent
      ((sent w1 ++ [WsConnect ANALYSIS_WS_URL]) ++
       [WsSend (dumps (analysis_request pgn gameID token))])
      (set_sockets rest (set_sent (sent w1 ++ [WsConnect ANALYSIS_WS_URL]) w1))
  in
  match fst (recv_loop loads fuel {| inbound := inbound; cursor := 0 |}) with
  | Pending => (Pending, w2)
  | r => (r, set_sent (sent w2 ++ [WsClose]) w2)
  end.
Proof.
  intros Hgen Hsock. unfold __analyze_game_async.
  rewrite (bind_Ok _ _ _ _ _ Hgen).
  unfold websockets_connect.
  unfold bind at 1. unfold bind at 1. unfold log at 1.
  cbn [sockets set_sent]. rewrite Hsock. cbn [of_reply sum_map id].
  unfold bind at 1. unfold log at 1.
  destruct (recv_loop loads fuel _) as [[game|e|] c]; reflexivity.
Qed.

Lemma analyze_async_refused loads dumps self pgn gameID fuel
    w token w1 e rest :
  __generate_account self w = (Ok token, w1) →
  sockets w1 = inl e :: rest →
  __analyze_game_async loads dumps self pgn gameID fuel w =
  (Raise e,
   set_sockets rest (set_sent (sent w1 ++ [WsConnect ANALYSIS_WS_URL]) w1)).
Proof.
  intros Hgen Hsock. unfold __analyze_game_async.
  rewrite (bind_Ok _ _ _ _ _ Hgen).
  unfold websockets_connect.
  unfold bind at 1. unfold bind at 1. unfold log at 1.
  cbn [sockets set_sent]. rewrite Hsock. reflexivity.
Qed.

Lemma analyze_async_traffic loads dumps self pgn gameID fuel
    w token w1 inbound rest :
  __generate_account self w = (Ok token, w1) →
  sockets w1 = inr inbound :: rest →
  let out := __analyze_game_async loads dumps self pgn gameID fuel w in
  fst out =
  fst (recv_loop loads fuel {| inbound := inbound; cursor := 0 |}) ∧
  sockets (snd out) = rest ∧
  sent (snd out) =
  sent w1 ++
  [WsConnect ANALYSIS_WS_URL;
   WsSend (dumps (analysis_request pgn gameID token))] ++
  (match fst out with Pending => [] | _ => [WsClose] end).
Proof.
  intros Hgen Hsock out. subst out.
  rewrite (analyze_async_connected _ _ _ _ _ _ _ _ _ _ _ Hgen Hsock).
  cbv zeta.
  destruct (fst (recv_loop loads fuel _)) as [game|e|];
    cbn [fst snd sockets sent set_sent set_sockets];
    rewrite <- !app_assoc; repeat split; reflexivity.
Qed.

(** X4. Once provisioning has returned and the connection is made, a call
    of [__analyze_game_async] sends exactly one message, the analysis
    request, and its outcome is the outcome of the receive loop. The
    connection is closed on every way out of the loop, a returned frame as
    well as an exception; it stays open only while the loop is waiting. A
    connection that cannot be made ends the call with that failure before
    anything is sent on it. *)
Theorem analyze_async_closes_connection loads dumps self pgn gameID fuel
    w token w1 :
  __generate_account self w = (Ok token, w1) →
  let out := __analyze_game_async loads dumps self pgn gameID fuel w in
  (∀ inbound rest,
     sockets w1 = inr inbound :: rest →
     fst out =
     fst (recv_loop loads fuel {| inbound := inbound; cursor := 0 |}) ∧
     sockets (snd out) = rest ∧
     sent (snd out) =
     sent w1 ++
     [WsConnect ANALYSIS_WS_URL;
      WsSend (dumps (analysis_request pgn gameID token))] ++
     (match fst out with Pending => [] | _ => [WsClose] end)) ∧
  (∀ e rest,
     sockets w1 = inl e :: rest →
     fst out = Raise e ∧
     sent (snd out) = sent w1 ++ [WsConnect ANALYSIS_WS_URL]).
Proof.
  intros Hgen out. subst out. split.
  - intros inbound rest Hsock.
    by apply analyze_async_traffic.
  - intros e rest Hsock.
    rewrite (analyze_async_refused _ _ _ _ _ _ _ _ _ _ _ Hgen Hsock).
    split; reflexivity.
Qed.

Lemma analyze_async_closes_connection_witness :
  let out :=
    __analyze_game_async sample_loads sample_dumps sample_class
      (PStr "1. e4") "12345678" 10 sample_world in
  fst out = Ok "analysis frame" ∧ last (sent (snd out)) = Some WsClose.
Proof.
  intros out.
  destruct (__generate_account sample_class sample_world) as [r w1] eqn:Hgen.
  pose proof Hgen as Hgen'. vm_compute in Hgen'. injection Hgen' as <- Hw1.
  destruct (proj1 (analyze_async_closes_connection sample_loads sample_dumps
                     sample_class (PStr "1. e4") "12345678" 10
                     sample_world (PStr "token-1") w1 Hgen)
              sample_inbound [])
    as (Hr & _ & Hs); [by rewrite <- Hw1|].
  fold out in Hr, Hs. split.
  - rewrite Hr. vm_compute. reflexivity.
  - rewrite Hs. assert (fst out = Ok "analysis frame") as ->.
    { rewrite Hr. vm_compute. reflexivity. }
    by rewrite !last_app.
Defined.



(** *** The receive loop when the analysis does not arrive *)

Lemma recv_loop_skip loads inbound n : ∀ c fuel,
  (∀ i, (i < n)%nat → ∃ frame a,
     inbound (c + i)%nat = Some frame ∧ tagged loads frame a ∧
     a ≠ PStr "analyzeGame") →
  recv_loop loads (n + fuel) {| inbound := inbound; cursor := c |} =
  recv_loop loads fuel {| inbound := inbound; cursor := (c + n)%nat |}.
Proof.
  induction n as [|n IH]; intros c fuel Hpre.
  - by rewrite Nat.add_0_r.
  - destruct (Hpre 0%nat) as (frame & a & Hf & Ha & Hne); [lia|].
    rewrite Nat.add_0_r in Hf.
    change (S n + fuel)%nat with (S (n + fuel)).
    rewrite (recv_loop_discards _ _ _ _ _ _ Hf Ha Hne).
    replace (c + S n)%nat with (S c + n)%nat by lia.
    apply IH. intros i Hi.
    destruct (Hpre (S i)) as (fr & b & ? & ? & ?); [lia|].
    exists fr, b. by replace (S c + i)%nat with (c + S i)%nat by lia.
Qed.

(** X6. After any number [n] of frames tagged otherwise, the receive loop
    does not outlive a broken stream: when the peer closes it raises
    [ConnectionClosed]; when the next frame is not JSON it raises
    [JSONDecodeError]; when that frame decodes to a value without an
    "action" entry it raises the error of that lookup. In each case the
    frames after it are left unread. *)
Theorem recv_loop_broken_stream loads inbound n fuel :
  (∀ i, (i < n)%nat → ∃ frame a,
     inbound i = Some frame ∧ tagged loads frame a ∧
     a ≠ PStr "analyzeGame") →
  (n < fuel)%nat →
  (inbound n = None →
   recv_loop loads fuel {| inbound := inbound; cursor := 0 |} =
   (Raise ConnectionClosed, {| inbound := inbound; cursor := n |})) ∧
  (∀ frame,
     inbound n = Some frame → loads frame = None →
     recv_loop loads fuel {| inbound := inbound; cursor := 0 |} =
     (Raise JSONDecodeError, {| inbound := inbound; cursor := S n |})) ∧
  (∀ frame msg e,
     inbound n = Some frame → loads frame = Some msg →
     py_getitem msg "action" = Raise e →
     recv_loop loads fuel {| inbound := inbound; cursor := 0 |} =
     (Raise e, {| inbound := inbound; cursor := S n |})).
Proof.
  intros Hpre Hfuel.
  replace fuel with (n + S (fuel - S n))%nat by lia.
  rewrite (recv_loop_skip loads inbound n 0%nat); [|exact Hpre].
  cbn [Nat.add recv_loop]. unfold recv, json_loads.
  cbn [World.inbound World.cursor].
  split; [|split].
  - by intros ->.
  - by intros frame -> ->.
  - intros frame msg e -> -> Hno. cbn [rbind]. by rewrite Hno.
Qed.

Lemma recv_loop_broken_stream_witness :
  recv_loop sample_loads 10 {| inbound := closing_inbound; cursor := 0 |} =
  (Raise ConnectionClosed, {| inbound := closing_inbound; cursor := 2 |}) ∧
  recv_loop sample_loads 10 {| inbound := garbled_inbound; cursor := 0 |} =
  (Raise JSONDecodeError, {| inbound := garbled_inbound; cursor := 3 |}).
Proof.
  assert (∀ inbound : nat → option string,
            inbound 0%nat = Some "progress frame" →
            inbound 1%nat = Some "progress frame" →
            ∀ i, (i < 2)%nat → ∃ frame a,
              inbound i = Some frame ∧ tagged sample_loads frame a ∧
              a ≠ PStr "analyzeGame") as Hpre.
  { intros inbound H0 H1 i Hi.
    exists "progress frame", (PStr "progress").
    split; [by destruct i as [|[|i]]; [..|lia]|].
    split; [|discriminate].
    exists (PDict [("action", PStr "progress")]). split; reflexivity. }
  split.
  - refine (proj1 (recv_loop_broken_stream sample_loads closing_inbound 2 10
                     (Hpre _ eq_refl eq_refl) _) eq_refl). lia.
  - refine (proj1 (proj2 (recv_loop_broken_stream sample_loads
                            garbled_inbound 2 10
                            (Hpre _ eq_refl eq_refl) _))
              "not a frame" eq_refl eq_refl). lia.
Defined.

(** *** The summary *)

Lemma move_rating_total data color moves : ∀ acc,
  (∀ l, l ∈ moves →
     ∃ n, py_path data ["data"; "tallies"; color; l] = Ok n) →
  ∃ ratings, move_rating data color moves acc = Ok ratings.
Proof.
  induction moves as [|move rest IH]; intros acc Hall; [by exists acc|].
  destruct (Hall move) as (n & Hn); [by left|].
  cbn [move_rating]. rewrite Hn. cbn [rbind].
  apply IH. intros l Hl. apply Hall. by right.
Qed.

Lemma color_entries_total data usernames colors : ∀ result,
  (∀ c, c ∈ colors → ∃ e, color_entry data usernames c = Ok e) →
  ∃ r, color_entries data usernames colors result = Ok r.
Proof.
  induction colors as [|color rest IH]; intros result Hall; [by exists result|].
  destruct (Hall color) as (e & He); [by left|].
  cbn [color_entries]. rewrite He. cbn [rbind].
  apply IH. intros c Hc. apply Hall. by right.
Qed.

(** X7. A summary returned by [__get_tallies] has always the same shape: the
    four entries "opening", "engine", "white", "black" in this order, the
    engine being the fixed text "StockFish 16 NNUE (Maximum)" whatever the
    payload says; the entry of a color has the seven entries below in this
    order, its user name is the one passed in for that color and its
    effective rating is the payload's value, unchanged, while each accuracy
    is a text of at most four characters. *)
Theorem get_tallies_shape loads self game usernames r :
  __get_tallies loads self game usernames = Ok r →
  ∃ data opening white black,
    loads game = Some data ∧
    r = PDict [("opening", PStr opening);
               ("engine", PStr "StockFish 16 NNUE (Maximum)");
               ("white", white); ("black", black)] ∧
    ∀ color entry,
      (color, entry) ∈ [("white", white); ("black", black)] →
      ∃ username effective_elo accuracy open_acc midd_acc end_acc ratings,
        entry = PDict [("username", username);
                       ("effective_elo", effective_elo);
                       ("accuracy", PStr accuracy);
                       ("open_acc", PStr open_acc);
                       ("midd_acc", PStr midd_acc);
                       ("end_acc", PStr end_acc);
                       ("move_rating", PDict ratings)] ∧
        py_getitem usernames color = Ok username ∧
        py_path data ["data"; "reportCard"; color; "effectiveElo"] =
        Ok effective_elo ∧
        (String.length accuracy ≤ 4 ∧ String.length open_acc ≤ 4 ∧
         String.length midd_acc ≤ 4 ∧ String.length end_acc ≤ 4)%nat.
Proof.
  unfold __get_tallies, json_loads. intros Hrun.
  apply rbind_Ok in Hrun as (data & Hdata & Hrun).
  apply rbind_Ok in Hrun as (name & Hname & Hrun).
  apply rbind_Ok in Hrun as (opening & Hopening & Hrun).
  apply rbind_Ok in Hrun as (d & Hd & Hrun).
  injection Hrun as <-.
  destruct (loads game) as [data'|]; [|discriminate].
  injection Hdata as ->.
  cbn [color_entries] in Hd.
  apply rbind_Ok in Hd as (white & Hwhite & Hd).
  apply rbind_Ok in Hd as (black & Hblack & Hd).
  injection Hd as <-.
  exists data, opening, white, black. split; [done|]. split.
  { by f_equal. }
  assert (∀ color entry, color_entry data usernames color = Ok entry →
          ∃ username effective_elo accuracy open_acc midd_acc end_acc ratings,
            entry = PDict [("username", username);
                           ("effective_elo", effective_elo);
                           ("accuracy", PStr accuracy);
                           ("open_acc", PStr open_acc);
                           ("midd_acc", PStr midd_acc);
                           ("end_acc", PStr end_acc);
                           ("move_rating", PDict ratings)] ∧
            py_getitem usernames color = Ok username ∧
            py_path data ["data"; "reportCard"; color; "effectiveElo"] =
            Ok effective_elo ∧
            (String.length accuracy ≤ 4 ∧ String.length open_acc ≤ 4 ∧
             String.length midd_acc ≤ 4 ∧ String.length end_acc ≤ 4)%nat)
    as Hentry.
  { intros color entry He.
    apply color_entry_Ok in He
      as (username & elo & acc & oacc & macc & eacc & ratings &
          Hu & Helo & Hacc & Hoacc & Hmacc & Heacc & _ & ->).
    apply caps_text_Ok in Hacc as (v0 & _ & ->).
    apply caps_text_Ok in Hoacc as (v1 & _ & ->).
    apply caps_text_Ok in Hmacc as (v2 & _ & ->).
    apply caps_text_Ok in Heacc as (v3 & _ & ->).
    eexists _, _, _, _, _, _, _. split; [reflexivity|].
    split; [done|]. split; [done|].
    rewrite !str_take_length. lia. }
  intros color entry Hin.
  apply elem_of_cons in Hin as [Hin|Hin].
  { injection Hin as -> ->. by apply Hentry. }
  apply elem_of_cons in Hin as [Hin|Hin].
  { injection Hin as -> ->. by apply Hentry. }
  by apply elem_of_nil in Hin.
Qed.

Lemma get_tallies_shape_witness :
  ∃ opening white black,
    __get_tallies sample_loads sample_class "analysis frame"
      sample_usernames =
    Ok (PDict [("opening", PStr opening);
               ("engine", PStr "StockFish 16 NNUE (Maximum)");
               ("white", white); ("black", black)]).
Proof.
  destruct (__get_tallies sample_loads sample_class "analysis frame"
              sample_usernames) as [r|e|] eqn:Hrun;
    [|vm_compute in Hrun; discriminate..].
  destruct (get_tallies_shape _ _ _ _ _ Hrun)
    as (data & opening & white & black & _ & -> & _).
  by exists opening, white, black.
Defined.

(** X8. [__get_tallies] returns a summary exactly when the frame is JSON,
    the book name is there, and for each of the two colors the user name,
    the effective rating, the four accuracy figures and the ten tally labels
    are there; any of them missing makes the call raise, so there is no
    partial summary. *)
Theorem get_tallies_succeeds_iff loads self game usernames :
  (∃ r, __get_tallies loads self game usernames = Ok r) ↔
  ∃ data,
    loads game = Some data ∧
    (∃ name, py_path data ["data"; "book"; "name"] = Ok name) ∧
    ∀ color, color ∈ ["white"; "black"] →
      (∃ u, py_getitem usernames color = Ok u) ∧
      (∃ elo,
         py_path data ["data"; "reportCard"; color; "effectiveElo"] =
         Ok elo) ∧
      (∀ key, key ∈ ["all"; "gp0"; "gp1"; "gp2"] →
         ∃ v, py_path data ["data"; "CAPS"; color; key] = Ok v) ∧
      (∀ label, label ∈ TALLIES_LIST →
         ∃ n, py_path data ["data"; "tallies"; color; label] = Ok n).
Proof.
  split.
  - intros (r & Hrun).
    apply get_tallies_Ok in Hrun
      as (data & name & _ & d & Hdata & Hname & _ & _ & _ & _ & Hcolors).
    exists data. split; [done|]. split; [eauto|].
    intros color Hcolor. destruct (Hcolors color Hcolor) as (e & He & _).
    apply color_entry_Ok in He
      as (username & elo & acc & oacc & macc & eacc & ratings &
          Hu & Helo & Hacc & Hoacc & Hmacc & Heacc & Hr & _).
    split; [eauto|]. split; [eauto|]. split.
    + apply caps_text_Ok in Hacc as (v0 & Hv0 & _).
      apply caps_text_Ok in Hoacc as (v1 & Hv1 & _).
      apply caps_text_Ok in Hmacc as (v2 & Hv2 & _).
      apply caps_text_Ok in Heacc as (v3 & Hv3 & _).
      intros key Hkey.
      repeat (apply elem_of_cons in Hkey as [->|Hkey]; [eauto|]).
      by apply elem_of_nil in Hkey.
    + intros label Hlabel.
      destruct (proj1 (move_rating_lookup _ _ _ _ _ Hr) label Hlabel)
        as (n & Hn & _).
      eauto.
  - intros (data & Hdata & (name & Hname) & Hcolors).
    unfold __get_tallies, json_loads. rewrite Hdata. cbn [rbind].
    rewrite Hname. cbn [rbind].
    destruct (str_split_head "," (py_str name)) as (w & ws & -> & _).
    cbn [lookup list_lookup rbind].
    destruct (color_entries_total data usernames ["white"; "black"]
                (dict_set "engine" (PStr "StockFish 16 NNUE (Maximum)")
                   (dict_set "opening" (PStr w) [])))
      as (d & Hd).
    + intros c Hc.
      destruct (Hcolors c Hc) as ((u & Hu) & (elo & Helo) & Hcaps & Htal).
      unfold color_entry, caps_text. rewrite Hu, Helo. cbn [rbind].
      destruct (Hcaps "all") as (v0 & ->); [by left|].
      destruct (Hcaps "gp0") as (v1 & ->); [by right; left|].
      destruct (Hcaps "gp1") as (v2 & ->); [by do 2 right; left|].
      destruct (Hcaps "gp2") as (v3 & ->); [by do 3 right; left|].
      cbn [rbind].
      destruct (move_rating_total data c TALLIES_LIST [] Htal) as (rs & ->).
      cbn [rbind]. eauto.
    + rewrite Hd. cbn [rbind]. eauto.
Qed.

(** *** Listing the games: what goes out *)

Lemma bind_snd_pure {A B} (m : M A) (k : A → M B) w :
  (∀ a w1, snd (k a w1) = w1) → snd (bind m k w) = snd (m w).
Proof.
  intros Hk. unfold bind. destruct (m w) as [[a|e|] w1]; cbn; [apply Hk|done..].
Qed.

Lemma get_game_number_world self username year month w :
  snd (get_game_number self username year month w) =
  snd (get_player_games_by_month username
         (default (fst (get_game_number_defaults self)) year)
         (default (snd (get_game_number_defaults self)) month) w).
Proof.
  unfold get_game_number. apply bind_snd_pure. intros reply w1.
  rewrite bind_snd_pure; [done|]. intros player_games w2.
  rewrite bind_snd_pure; [done|]. by intros items w3.
Qed.

(** X9. Whatever its outcome, [get_game_number] makes exactly one outgoing
    request, to the game-history service, for the user and the year and
    month it was given (the stored default for each of the two that is left
    out); it uses up one reply of that service and nothing else: no HTTP
    exchange, so no account, no connection, no random draw. A failure of
    the service is raised as it is. *)
Theorem get_game_number_one_request self username year month w :
  let out := get_game_number self username year month w in
  sent (snd out) =
  sent w ++
  [PlayerGames (client_user_agent w) username
     (default (fst (get_game_number_defaults self)) year)
     (default (snd (get_game_number_defaults self)) month)] ∧
  api_replies (snd out) = tail (api_replies w) ∧
  http_replies (snd out) = http_replies w ∧
  sockets (snd out) = sockets w ∧
  rng_pos (snd out) = rng_pos w ∧
  (∀ e rest, api_replies w = inl e :: rest → fst out = Raise e).
Proof.
  intros out. subst out. rewrite get_game_number_world.
  split; [apply get_player_games_by_month_sent|].
  split; [|split; [|split; [|split]]].
  - unfold get_player_games_by_month, bind, log.
    cbn [fst snd api_replies set_sent].
    destruct (api_replies w) as [|r l] eqn:Hw;
      cbn [fst snd api_replies set_sent set_api_replies];
      [by rewrite Hw|reflexivity].
  - by apply keeps_get_player_games_by_month.
  - by apply keeps_get_player_games_by_month.
  - by apply keeps_get_player_games_by_month.
  - intros e rest Hw.
    unfold get_game_number, get_player_games_by_month, bind, log. cbn.
    by rewrite Hw.
Qed.

(** *** Analysing a game: order and provenance *)

Lemma no_digit_no_match url :
  no_digit url = true → re_search_digit_dotstar url = None.
Proof.
  induction url as [|c url IH]; [done|].
  cbn [no_digit str_all re_search_digit_dotstar].
  intros [Hc Hurl]%andb_true_iff. apply negb_true_iff in Hc.
  rewrite Hc. by apply IH.
Qed.

(** X10. The identifier is read with [.group(0)] on the result of the
    search without a test for a match: a game record whose URL contains no
    decimal digit makes the lookup raise [AttributeError], and one whose
    "url" entry is not a text makes it raise [TypeError]. *)
Theorem locate_game_url_without_digit player_games i g pgn :
  py_index player_games i = Ok g →
  py_getitem g "pgn" = Ok pgn →
  (∀ url, py_getitem g "url" = Ok (PStr url) → no_digit url = true →
     locate_game player_games i = Raise AttributeError) ∧
  (∀ v, py_getitem g "url" = Ok v → (∀ url, v ≠ PStr url) →
     locate_game player_games i = Raise TypeError).
Proof.
  intros Hg Hpgn. split.
  - intros url Hurl Hno. unfold locate_game, game_field.
    rewrite Hg. cbn [rbind py_path]. rewrite Hpgn, Hurl. cbn [rbind re_search].
    by rewrite no_digit_no_match.
  - intros v Hurl Hv. unfold locate_game, game_field.
    rewrite Hg. cbn [rbind py_path]. rewrite Hpgn, Hurl. cbn [rbind].
    destruct v; try reflexivity. by destruct (Hv s).
Qed.

Lemma locate_game_url_without_digit_witness :
  locate_game digitless_games 0 = Raise AttributeError.
Proof.
  refine (proj1 (locate_game_url_without_digit digitless_games 0
                   (sample_game "https://www.chess.com/game/live/"
                      "alice" "bob")
                   (PStr "1. e4 e5 2. Nf3 Nc6 3. Bc4 Bc5") eq_refl eq_refl)
            "https://www.chess.com/game/live/" eq_refl eq_refl).
Defined.

(** X11. [analyze_game] looks the game up before it provisions anything:
    when the lookup raises, whatever the reason (index, missing "pgn" or
    "url", URL without a digit, missing handle), the call raises the same
    exception having made the game-history request only; no account is
    registered, no connection is opened and no random name is drawn. *)
Theorem analyze_game_lookup_failure_costs_nothing loads dumps self username i
    year month fuel w reply rest player_games e :
  api_replies w = inr reply :: rest →
  py_getitem reply "games" = Ok player_games →
  locate_game player_games i = Raise e →
  let out := analyze_game loads dumps self username i year month fuel w in
  fst out = Raise e ∧
  sent (snd out) =
  sent w ++
  [PlayerGames (client_user_agent w) username
     (default (fst (analyze_game_defaults self)) year)
     (default (snd (analyze_game_defaults self)) month)] ∧
  http_replies (snd out) = http_replies w ∧
  sockets (snd out) = sockets w ∧
  rng_pos (snd out) = rng_pos w.
Proof.
  intros Hw Hgames Hfail out. subst out.
  rewrite (analyze_game_located _ _ _ _ _ _ _ _ _ _ _ _ Hw Hgames).
  rewrite Hfail. cbv zeta. repeat split; reflexivity.
Qed.

Lemma analyze_game_lookup_failure_costs_nothing_witness :
  let out :=
    analyze_game sample_loads sample_dumps sample_class "alice" 5
      None None 10 sample_world in
  fst out = Raise IndexError ∧
  http_replies (snd out) = http_replies sample_world.
Proof.
  intros out.
  destruct (analyze_game_lookup_failure_costs_nothing sample_loads
              sample_dumps sample_class "alice" 5 None None 10 sample_world
              (PDict [("games", PList sample_games)]) []
              (PList sample_games) IndexError eq_refl eq_refl eq_refl)
    as (Hr & _ & Hh & _).
  split; [exact Hr|exact Hh].
Defined.








Lemma analyze_game_connected loads dumps self username i
    year month fuel w reply rest player_games pgn gameID usernames
    token w1 inbound socks :
  api_replies w = inr reply :: rest →
  py_getitem reply "games" = Ok player_games →
  locate_game player_games i = Ok (pgn, gameID, usernames) →
  __generate_account self
    (set_api_replies rest
       (set_sent
          (sent w ++
           [PlayerGames (client_user_agent w) username
              (default (fst (analyze_game_defaults self)) year)
              (default (snd (analyze_game_defaults self)) month)])
          w)) = (Ok token, w1) →
  sockets w1 = inr inbound :: socks →
  analyze_game loads dumps self username i year month fuel w =
  let w2 :=
    set_sent
      ((sent w1 ++ [WsConnect ANALYSIS_WS_URL]) ++
       [WsSend (dumps (analysis_request pgn gameID token))])
      (set_sockets socks
         (set_sent (sent w1 ++ [WsConnect ANALYSIS_WS_URL]) w1)) in
  match fst (recv_loop loads fuel {| inbound := inbound; cursor := 0 |}) with
  | Ok game =>
      (__get_tallies loads self game usernames,
       set_sent (sent w2 ++ [WsClose]) w2)
  | Raise e => (Raise e, set_sent (sent w2 ++ [WsClose]) w2)
  | Pending => (Pending, w2)
  end.
Proof.
  intros Hw Hgames Hloc Hgen Hsock.
  rewrite (analyze_game_located _ _ _ _ _ _ _ _ _ _ _ _ Hw Hgames).
  rewrite Hloc. cbv zeta. unfold bind at 1.
  rewrite (analyze_async_connected _ _ _ _ _ _ _ _ _ _ _ Hgen Hsock).
  cbv zeta.
  destruct (fst (recv_loop loads fuel _)) as [game|e|]; reflexivity.
Qed.

(** X14. End to end: when the month is there, the lookup succeeds,
    provisioning returns and the connection is made, the outcome of
    [analyze_game] is decided by the receive loop alone: if the loop returns
    a frame, the result is the summary of that very frame with the user
    names of the selected record, a failure of the summary included; if the
    loop raises, so does the call. Either way the connection has been
    closed by then. *)
Theorem analyze_game_summarises_returned_frame loads dumps self username i
    year month fuel w reply rest player_games pgn gameID usernames
    token w1 inbound socks :
  api_replies w = inr reply :: rest →
  py_getitem reply "games" = Ok player_games →
  locate_game player_games i = Ok (pgn, gameID, usernames) →
  __generate_account self
    (set_api_replies rest
       (set_sent
          (sent w ++
           [PlayerGames (client_user_agent w) username
              (default (fst (analyze_game_defaults self)) year)
              (default (snd (analyze_game_defaults self)) month)])
          w)) = (Ok token, w1) →
  sockets w1 = inr inbound :: socks →
  let out := analyze_game loads dumps self username i year month fuel w in
  (∀ game c,
     recv_loop loads fuel {| inbound := inbound; cursor := 0 |} =
     (Ok game, c) →
     fst out = __get_tallies loads self game usernames ∧
     last (sent (snd out)) = Some WsClose) ∧
  (∀ e c,
     recv_loop loads fuel {| inbound := inbound; cursor := 0 |} =
     (Raise e, c) →
     fst out = Raise e ∧ last (sent (snd out)) = Some WsClose).
Proof.
  intros Hw Hgames Hloc Hgen Hsock out. subst out.
  rewrite (analyze_game_connected loads dumps self username i year month
             fuel w reply rest player_games pgn gameID usernames token w1
             inbound socks Hw Hgames Hloc Hgen Hsock).
  cbv zeta. split.
  - intros game c Hloop. rewrite Hloop. cbn [fst snd sent set_sent].
    split; [reflexivity|]. by rewrite last_snoc.
  - intros e c Hloop. rewrite Hloop. cbn [fst snd sent set_sent].
    split; [reflexivity|]. by rewrite last_snoc.
Qed.

Lemma analyze_game_summarises_returned_frame_witness :
  fst (analyze_game sample_loads sample_dumps sample_class "alice" 0
         None None 10 sample_world) =
  __get_tallies sample_loads sample_class "analysis frame" sample_usernames.
Proof.
  destruct (__generate_account sample_class
              (set_api_replies []
                 (set_sent
                    (sent sample_world ++
                     [PlayerGames (client_user_agent sample_world) "alice"
                        (default (fst (analyze_game_defaults sample_class))
                           None)
                        (default (snd (analyze_game_defaults sample_class))
                           None)])
                    sample_world))) as [r w1] eqn:Hgen.
  pose proof Hgen as Hgen'. vm_compute in Hgen'. injection Hgen' as <- Hw1.
  destruct (locate_game (PList sample_games) 0)
    as [[[pgn gameID] usernames]|e|] eqn:Hloc;
    [|vm_compute in Hloc; discriminate..].
  pose proof Hloc as Hloc'. vm_compute in Hloc'. injection Hloc' as _ _ <-.
  destruct (recv_loop sample_loads 10
              {| inbound := sample_inbound; cursor := 0 |})
    as [rl c] eqn:Hloop.
  pose proof Hloop as Hloop'. vm_compute in Hloop'. injection Hloop' as <- _.
  refine (proj1 (proj1 (analyze_game_summarises_returned_frame sample_loads
                          sample_dumps sample_class "alice" 0 None None 10
                          sample_world (PDict [("games", PList sample_games)])
                          [] (PList sample_games) pgn gameID _
                          (PStr "token-1") w1 sample_inbound []
                          eq_refl eq_refl Hloc Hgen _)
                   "analysis frame" c Hloop)).
  by rewrite <- Hw1.
Defined.

(** *** The process-wide client setting *)

(** *** Where the token of a call comes from *)



Lemma generate_account_after_draws self w :
  ∃ user passwd,
    String.length user = 15%nat ∧ String.length passwd = 20%nat ∧
    random_choices alphanumeric 15 w =
    (Ok user, set_rng_pos (rng_pos w + 15) w) ∧
    __generate_account self w =
    bind (requests_get (CHESSKID_URL +:+ "/register/user-type") [])
      (λ r0,
         let! PHPSESSID := lift (cookie r0 "PHPSESSID") in
         let json_data :=
           PDict [("avatarFilename", PStr "kid-1459.png");
                  ("username", PStr user);
                  ("userType", PStr "kid");
                  ("password", PStr passwd);
                  ("email", PStr (user +:+ "@gmail.com"))] in
         let! agent := user_agent_random in
         let! response :=
           requests_post (CHESSKID_URL +:+ "/callback/register/account")
             [("PHPSESSID", PHPSESSID)] [("User-Agent", agent)] json_data in
         let! body := lift (response_json response) in
         let! name := lift (py_path body ["user"; "username"]) in
         let! found := lift (py_contains user name) in
         if negb found then ret (PStr "ERROR GENERATING ACCOUNT.")
         else
           let! sid := lift (cookie response "PHPSESSID") in
           __fetch_token self sid)
      (set_rng_pos (rng_pos w + 35) w).
Proof.
  destruct (random_choices_run_length alphanumeric 15 w)
    as (user & Hu & Hlu); [discriminate|].
  destruct (random_choices_run_length alphanumeric 20
              (set_rng_pos (rng_pos w + 15) w))
    as (passwd & Hp & Hlp); [discriminate|].
  exists user, passwd. split; [done|]. split; [done|]. split; [done|].
  unfold __generate_account.
  rewrite (bind_Ok _ _ _ _ _ Hu), (bind_Ok _ _ _ _ _ Hp).
  cbn [rng_pos set_rng_pos].
  replace (rng_pos w + 15 + 20)%nat with (rng_pos w + 35)%nat by lia.
  reflexivity.
Qed.

(** What lies behind a value returned by [__generate_account]. *)
Lemma generate_account_Ok_inv self w token w1 :
  __generate_account self w = (Ok token, w1) →
  ∃ user passwd r0 r1 tl sid0 body name found,
    String.length user = 15%nat ∧ String.length passwd = 20%nat ∧
    fst (random_choices alphanumeric 15 w) = Ok user ∧
    http_replies w = inr r0 :: inr r1 :: tl ∧
    cookie r0 "PHPSESSID" = Ok sid0 ∧
    response_json r1 = Ok body ∧
    py_path body ["user"; "username"] = Ok name ∧
    py_contains user name = Ok found ∧
    ((found = false ∧ token = PStr "ERROR GENERATING ACCOUNT." ∧
      http_replies w1 = tl ∧
      sent w1 =
      sent w ++
      [session_request;
       registration_request sid0 (registration_agent w) user passwd]) ∨
     (found = true ∧
      ∃ r2 rest sid1,
        tl = inr r2 :: rest ∧
        cookie r1 "PHPSESSID" = Ok sid1 ∧
        token_of r2 = Ok token ∧
        http_replies w1 = rest ∧
        sent w1 =
        sent w ++
        [session_request;
         registration_request sid0 (registration_agent w) user passwd;
         token_request sid1])).
Proof.
  intros Hrun.
  destruct (generate_account_after_draws self w)
    as (user & passwd & Hlu & Hlp & Hu & Heq).
  rewrite Heq in Hrun. clear Heq.
  apply bind_inv_Ok in Hrun as (r0 & w2 & H0 & Hrun).
  apply http_exchange_inv_Ok in H0 as (tl0 & Hw0 & ->).
  apply bind_inv_Ok in Hrun as (sid0 & w3 & Hsid0 & Hrun).
  apply lift_inv_Ok in Hsid0 as [Hsid0 ->].
  apply bind_inv_Ok in Hrun as (agent & w4 & Hagent & Hrun).
  unfold user_agent_random in Hagent. injection Hagent as Hagent <-.
  apply bind_inv_Ok in Hrun as (r1 & w5 & H1 & Hrun).
  apply http_exchange_inv_Ok in H1 as (tl & Hw1 & ->).
  apply bind_inv_Ok in Hrun as (body & w6 & Hbody & Hrun).
  apply lift_inv_Ok in Hbody as [Hbody ->].
  apply bind_inv_Ok in Hrun as (name & w7 & Hname & Hrun).
  apply lift_inv_Ok in Hname as [Hname ->].
  apply bind_inv_Ok in Hrun as (found & w8 & Hfound & Hrun).
  apply lift_inv_Ok in Hfound as [Hfound ->].
  cbn [http_replies set_http_replies set_sent set_rng_pos] in Hw0, Hw1.
  subst tl0.
  cbn [rng rng_pos user_agents set_http_replies set_sent set_rng_pos]
    in Hagent.
  exists user, passwd, r0, r1, tl, sid0, body, name, found.
  split; [done|]. split; [done|]. split; [by rewrite Hu|].
  split; [done|]. split; [done|]. split; [done|]. split; [done|].
  split; [done|].
  unfold registration_agent, session_request, registration_request,
    token_request. rewrite Hagent.
  destruct found; cbn [negb] in Hrun.
  - right. split; [done|].
    apply bind_inv_Ok in Hrun as (sid1 & w9 & Hsid1 & Hrun).
    apply lift_inv_Ok in Hsid1 as [Hsid1 ->].
    unfold __fetch_token in Hrun.
    apply bind_inv_Ok in Hrun as (r2 & w10 & H2 & Hrun).
    apply http_exchange_inv_Ok in H2 as (rest & Hw2 & ->).
    cbn [http_replies set_http_replies set_sent set_rng_pos] in Hw2.
    apply bind_inv_Ok in Hrun as (b & w11 & Hb & Hrun).
    apply lift_inv_Ok in Hb as [Hb ->].
    apply bind_inv_Ok in Hrun as (t & w12 & Ht & Hrun).
    apply lift_inv_Ok in Ht as [Ht ->].
    injection Hrun as -> <-.
    exists r2, rest, sid1. split; [done|]. split; [done|]. split.
    { unfold token_of. rewrite Hb. exact Ht. }
    split; [reflexivity|].
    cbn [sent set_http_replies set_sent]. by rewrite <- !app_assoc.
  - left. injection Hrun as <- <-. split; [done|]. split; [done|].
    split; [reflexivity|].
    cbn [sent set_http_replies set_sent]. by rewrite <- !app_assoc.
Qed.

(** X3. Whenever [__generate_account] returns a value it has registered
    exactly one account: it sent the session request, then one registration
    under the session cookie of the first reply, carrying the user name of 15
    characters it drew first, a password of 20 characters and the address
    user@gmail.com, and then either nothing more, the value being the text
    "ERROR GENERATING ACCOUNT.", or one token request carrying the session
    cookie of the registration reply, which is the second reply consumed. *)
Theorem generate_account_registers_once self w token w' :
  __generate_account self w = (Ok token, w') →
  ∃ user passwd session_reply registration_reply later sid0,
    String.length user = 15%nat ∧ String.length passwd = 20%nat ∧
    fst (random_choices alphanumeric 15 w) = Ok user ∧
    http_replies w = inr session_reply :: inr registration_reply :: later ∧
    cookie session_reply "PHPSESSID" = Ok sid0 ∧
    let session := HttpGet (CHESSKID_URL +:+ "/register/user-type") [] in
    let registration :=
      HttpPost (CHESSKID_URL +:+ "/callback/register/account")
        [("PHPSESSID", sid0)] [("User-Agent", registration_agent w)]
        (PDict [("avatarFilename", PStr "kid-1459.png");
                ("username", PStr user);
                ("userType", PStr "kid");
                ("password", PStr passwd);
                ("email", PStr (user +:+ "@gmail.com"))]) in
    (token = PStr "ERROR GENERATING ACCOUNT." ∧
     http_replies w' = later ∧
     sent w' = sent w ++ [session; registration]) ∨
    (∃ sid1 token_reply rest,
       cookie registration_reply "PHPSESSID" = Ok sid1 ∧
       later = inr token_reply :: rest ∧
       http_replies w' = rest ∧
       sent w' =
       sent w ++
       [session; registration;
        HttpGet (CHESSKID_URL +:+ "/callback/auth/service/analysis")
          [("PHPSESSID", sid1)]]).
Proof.
  intros Hrun.
  destruct (generate_account_Ok_inv self w token w' Hrun)
    as (user & passwd & r0 & r1 & tl & sid0 & body & name & found &
        Hlu & Hlp & Hdraw & Hw & Hsid0 & _ & _ & _ & Hcase).
  exists user, passwd, r0, r1, tl, sid0.
  split; [exact Hlu|]. split; [exact Hlp|]. split; [exact Hdraw|].
  split; [exact Hw|]. split; [exact Hsid0|]. cbv zeta.
  destruct Hcase as [(_ & Ht & Hr & Hs)|(_ & r2 & rest & sid1 &
                                         Htl & Hsid1 & _ & Hr & Hs)].
  - left. split; [exact Ht|]. split; [exact Hr|exact Hs].
  - right. exists sid1, r2, rest.
    split; [exact Hsid1|]. split; [exact Htl|]. split; [exact Hr|exact Hs].
Qed.

Lemma generate_account_registers_once_witness :
  ∃ token w' passwd,
    __generate_account sample_class sample_world = (Ok token, w') ∧
    sent w' =
    [HttpGet "https://www.chesskid.com/register/user-type" [];
     HttpPost "https://www.chesskid.com/callback/register/account"
       [("PHPSESSID", "anon-session")] [("User-Agent", "Mozilla/5.0")]
       (PDict [("avatarFilename", PStr "kid-1459.png");
               ("username", PStr "ABCDEFGHIJKLMNO");
               ("userType", PStr "kid");
               ("password", PStr passwd);
               ("email", PStr "ABCDEFGHIJKLMNO@gmail.com")]);
     HttpGet "https://www.chesskid.com/callback/auth/service/analysis"
       [("PHPSESSID", "kid-session")]].
Proof.
  destruct (__generate_account sample_class sample_world)
    as [r w'] eqn:Hrun.
  pose proof Hrun as Hrun'. vm_compute in Hrun'. injection Hrun' as <- _.
  destruct (generate_account_registers_once sample_class sample_world
              (PStr "token-1") w' Hrun)
    as (user & passwd & r0 & r1 & tl & sid0 &
        _ & _ & Hdraw & Hw & Hsid0 & Hcase).
  vm_compute in Hdraw. injection Hdraw as <-.
  vm_compute in Hw. injection Hw as <- <- <-.
  vm_compute in Hsid0. injection Hsid0 as <-.
  exists (PStr "token-1"), w', passwd. split; [reflexivity|].
  cbv zeta in Hcase.
  destruct Hcase as [(Hbad & _)|(sid1 & r2 & rest & Hsid1 & _ & _ & Hs)].
  - vm_compute in Hbad. discriminate Hbad.
  - vm_compute in Hsid1. injection Hsid1 as <-.
    rewrite Hs. vm_compute. reflexivity.
Defined.






(** *** The user agent of the game-history client *)

Section RequestsCarry.

Variable ua : string.

Lemma carry_quiet {A} (m : M A) :
  (∀ w, client_user_agent (snd (m w)) = client_user_agent w ∧
        sent (snd (m w)) = sent w) →
  requests_carry ua m.
Proof.
  intros Hm w Hw. destruct (Hm w) as [Hc Hs].
  split; [rewrite Hc; exact Hw|].
  exists []. split; [rewrite Hs; symmetry; apply app_nil_r|constructor].
Qed.

Lemma carry_ret {A} (a : A) : requests_carry ua (ret a).
Proof. apply carry_quiet. intros w. split; reflexivity. Qed.

Lemma carry_lift {A} (r : res A) : requests_carry ua (lift r).
Proof. apply carry_quiet. intros w. split; reflexivity. Qed.

Lemma carry_bind {A A'} (m : M A) (k : A → M A') :
  requests_carry ua m → (∀ a, requests_carry ua (k a)) →
  requests_carry ua (bind m k).
Proof.
  intros Hm Hk w Hw. unfold bind.
  destruct (Hm w Hw) as (Hc & new & Hs & Hnew).
  destruct (m w) as [[a|e|] w1]; cbn [fst snd] in *.
  - destruct (Hk a w1 Hc) as (Hc2 & new2 & Hs2 & Hnew2).
    split; [exact Hc2|]. exists (new ++ new2).
    split; [rewrite Hs2, Hs; symmetry; apply app_assoc|].
    apply Forall_app. split; [exact Hnew|exact Hnew2].
  - split; [exact Hc|]. exists new. split; [exact Hs|exact Hnew].
  - split; [exact Hc|]. exists new. split; [exact Hs|exact Hnew].
Qed.

Lemma carry_log ev : carries ua ev → requests_carry ua (log ev).
Proof.
  intros Hev w Hw. unfold log. cbn [fst snd client_user_agent sent set_sent].
  split; [exact Hw|]. exists [ev]. split; [reflexivity|].
  constructor; [exact Hev|constructor].
Qed.

Lemma carry_random_choices population k :
  requests_carry ua (random_choices population k).
Proof.
  induction k as [|k IH]; cbn [random_choices]; [apply carry_ret|].
  apply carry_bind.
  { apply carry_quiet. intros w. split; reflexivity. }
  intros i. apply carry_bind; [apply IH|]. intros s. apply carry_ret.
Qed.

Lemma carry_user_agent_random : requests_carry ua user_agent_random.
Proof. apply carry_quiet. intros w. split; reflexivity. Qed.

Lemma carry_http_exchange ev :
  carries ua ev → requests_carry ua (http_exchange ev).
Proof.
  intros Hev. unfold http_exchange.
  apply carry_bind; [apply carry_log; exact Hev|]. intros _.
  apply carry_quiet. intros w.
  destruct (http_replies w); split; reflexivity.
Qed.

Lemma carry_fetch_token self sid : requests_carry ua (__fetch_token self sid).
Proof.
  unfold __fetch_token, requests_get.
  apply carry_bind; [apply carry_http_exchange; exact I|]. intros r.
  apply carry_bind; [apply carry_lift|]. intros body.
  apply carry_bind; [apply carry_lift|]. intros token. apply carry_ret.
Qed.

Lemma carry_generate_account self :
  requests_carry ua (__generate_account self).
Proof.
  unfold __generate_account, requests_get, requests_post.
  apply carry_bind; [apply carry_random_choices|]. intros user.
  apply carry_bind; [apply carry_random_choices|]. intros passwd.
  apply carry_bind; [apply carry_http_exchange; exact I|]. intros r0.
  apply carry_bind; [apply carry_lift|]. intros sid0.
  apply carry_bind; [apply carry_user_agent_random|]. intros agent.
  apply carry_bind; [apply carry_http_exchange; exact I|]. intros response.
  apply carry_bind; [apply carry_lift|]. intros body.
  apply carry_bind; [apply carry_lift|]. intros name.
  apply carry_bind; [apply carry_lift|]. intros [|]; cbn [negb].
  - apply carry_bind; [apply carry_lift|]. intros sid.
    apply carry_fetch_token.
  - apply carry_ret.
Qed.

Lemma carry_get_player_games_by_month username year month :
  requests_carry ua (get_player_games_by_month username year month).
Proof.
  unfold get_player_games_by_month. apply carry_bind.
  - intros w Hw. unfold log.
    cbn [fst snd client_user_agent sent set_sent].
    split; [exact Hw|]. eexists [_]. split; [reflexivity|].
    constructor; [exact Hw|constructor].
  - intros _. apply carry_quiet. intros w.
    destruct (api_replies w); split; reflexivity.
Qed.

Lemma carry_websockets_connect url :
  requests_carry ua (websockets_connect url).
Proof.
  unfold websockets_connect.
  apply carry_bind; [apply carry_log; exact I|]. intros _.
  apply carry_quiet. intros w. destruct (sockets w); split; reflexivity.
Qed.

Lemma carry_get_game_number self username year month :
  requests_carry ua (get_game_number self username year month).
Proof.
  unfold get_game_number.
  apply carry_bind; [apply carry_get_player_games_by_month|]. intros reply.
  apply carry_bind; [apply carry_lift|]. intros player_games.
  apply carry_bind; [apply carry_lift|]. intros items. apply carry_lift.
Qed.

Lemma carry_analyze_game_async loads dumps self pgn gameID fuel :
  requests_carry ua (__analyze_game_async loads dumps self pgn gameID fuel).
Proof.
  unfold __analyze_game_async.
  apply carry_bind; [apply carry_generate_account|]. intros token.
  apply carry_bind; [apply carry_websockets_connect|]. intros websocket.
  apply carry_bind; [apply carry_log; exact I|]. intros _.
  destruct (recv_loop loads fuel websocket) as [[game|e|] c];
    try apply carry_lift;
    (apply carry_bind; [apply carry_log; exact I|intros _; apply carry_lift]).
Qed.

Lemma carry_analyze_game loads dumps self username i year month fuel :
  requests_carry ua (analyze_game loads dumps self username i year month fuel).
Proof.
  unfold analyze_game.
  apply carry_bind; [apply carry_get_player_games_by_month|]. intros reply.
  apply carry_bind; [apply carry_lift|]. intros player_games.
  apply carry_bind; [apply carry_lift|]. intros [[pgn gameID] usernames].
  apply carry_bind; [apply carry_analyze_game_async|]. intros game.
  apply carry_lift.
Qed.

End RequestsCarry.

Lemma carry_init self :
  requests_carry "My Python Application.Contact me at email@example.com"
    (__init__ self).
Proof.
  intros w _. unfold __init__.
  cbn [fst snd client_user_agent sent set_client_user_agent].
  split; [reflexivity|]. exists []. split; [|constructor].
  symmetry. apply app_nil_r.
Qed.

Lemma carry_after_calls loads dumps cs : ∀ w,
  client_user_agent w =
  "My Python Application.Contact me at email@example.com" →
  client_user_agent (after_calls loads dumps cs w) =
  "My Python Application.Contact me at email@example.com" ∧
  ∃ new,
    sent (after_calls loads dumps cs w) = sent w ++ new ∧
    Forall
      (carries "My Python Application.Contact me at email@example.com") new.
Proof.
  induction cs as [|c cs IH]; intros w Hw.
  - split; [exact Hw|]. exists []. split; [|constructor].
    symmetry. apply app_nil_r.
  - assert (client_user_agent (after_call loads dumps c w) =
            "My Python Application.Contact me at email@example.com" ∧
            ∃ new,
              sent (after_call loads dumps c w) = sent w ++ new ∧
              Forall
                (carries
                   "My Python Application.Contact me at email@example.com")
                new) as (Hc & new & Hs & Hnew).
    { destruct c as [self|self username year month
                    |self username i year month fuel];
        unfold after_call.
      - exact (carry_init self w Hw).
      - exact (carry_get_game_number _ self username year month w Hw).
      - exact (carry_analyze_game _ loads dumps self username i year month
                 fuel w Hw). }
    destruct (IH _ Hc) as (Hc2 & new2 & Hs2 & Hnew2).
    change (after_calls loads dumps (c :: cs) w)
      with (after_calls loads dumps cs (after_call loads dumps c w)).
    split; [exact Hc2|]. exists (new ++ new2).
    split; [rewrite Hs2, Hs; symmetry; apply app_assoc|].
    apply Forall_app. split; [exact Hnew|exact Hnew2].
Qed.

(** X13. Creating an analyzer overwrites the one process-wide setting of the
    game-history client, its User-Agent, with the two adjacent literals of
    lines 19 to 22 joined without a space, and changes nothing else of the
    world.  From then on the setting stays: in any world where it holds,
    [get_game_number] and [analyze_game] leave it as it is and send every
    game-history request with it; so after the creation of an analyzer,
    whatever calls follow on whatever analyzers and however they end, the
    setting is still that value and every game-history request sent since
    carries it. *)
Theorem init_sets_client_user_agent loads dumps self :
  let ua := "My Python Application.Contact me at email@example.com" in
  (∀ w, __init__ self w = (Ok tt, set_client_user_agent ua w)) ∧
  (∀ other username year month,
     requests_carry ua (get_game_number other username year month)) ∧
  (∀ other username i year month fuel,
     requests_carry ua
       (analyze_game loads dumps other username i year month fuel)) ∧
  (∀ w cs,
     let w1 := after_calls loads dumps cs (snd (__init__ self w)) in
     client_user_agent w1 = ua ∧
     ∃ new, sent w1 = sent w ++ new ∧ Forall (carries ua) new).
Proof.
  intros ua. split; [|split; [|split]].
  - intros w. reflexivity.
  - intros. apply carry_get_game_number.
  - intros. apply carry_analyze_game.
  - intros w cs w1. subst w1.
    exact (carry_after_calls loads dumps cs (snd (__init__ self w)) eq_refl).
Qed.

Lemma init_sets_client_user_agent_witness :
  let ua := "My Python Application.Contact me at email@example.com" in
  let w0 := snd (__init__ sample_class two_calls_world) in
  let w1 :=
    after_calls sample_loads sample_dumps
      [GetGameNumber sample_class "alice" None None;
       Create sample_class;
       AnalyzeGame sample_class "alice" 0 (Some "2024") (Some "3") 10]
      w0 in
  client_user_agent w1 = ua ∧
  Forall (carries ua) (sent w1) ∧
  head (sent w1) = Some (PlayerGames ua "alice" "2024" "3") ∧
  Forall (carries ua)
    (sent (snd (get_game_number sample_class "alice" None None w0))).
Proof.
  intros ua w0 w1.
  pose proof (init_sets_client_user_agent sample_loads sample_dumps
                sample_class) as (_ & Hlist & _ & Hcalls).
  destruct (Hcalls two_calls_world
              [GetGameNumber sample_class "alice" None None;
               Create sample_class;
               AnalyzeGame sample_class "alice" 0 (Some "2024") (Some "3")
                 10%nat])
    as (Hc & new & Hs & Hnew).
  split; [exact Hc|]. split; [|split].
  - exact (eq_ind_r (Forall (carries ua)) Hnew Hs).
  - vm_compute. reflexivity.
  - destruct (Hlist sample_class "alice" None None w0 eq_refl)
      as (_ & new' & Hs' & Hnew').
    exact (eq_ind_r (Forall (carries ua)) Hnew' Hs').
Defined.
